(** * The data worker: fusion, deduplication and cache of aircraft reports

    A shallow embedding of [src/data-worker.js].

    - JavaScript numbers are kept behind the interface [JSNumber], with two
      instances: [Double], IEEE 754 binary64 through Rocq's primitive floats
      (what the worker executes; [Math.sin], [Math.cos] and [Math.atan2],
      which ECMAScript leaves implementation-approximated, are taken from a
      [Libm] record), and [Exact], the real numbers (the idealised
      arithmetic, used for statements about the haversine formula on finite
      coordinates, where rounding is ignored).
    - The objects that travel through the worker are plain JavaScript
      objects; they are one record, [Aircraft], at every stage, with every
      property present.  The identifiers are optional strings (the code
      tests their truthiness), the positions and kinematics are numbers,
      [priority] is the integer the coordinator injects and [timestamp] is
      in integer milliseconds, as [Date.now()] gives it.  The [source],
      [priority] and [confidence] of an element of a snapshot are never
      read: flattening overwrites the first two and fusion sets the third.
    - [fusedMap] is a JavaScript [Map], whose [values()] come in insertion
      order: it is an association list.  [processedKeys] is a [Set] and
      [aircraftCache] a [Map] read by key only: they are [gset] and [gmap].
    - [processAircraftData] runs in a state-and-exception monad over the
      worker's globals, so that a [catch] sees the state as the [throw]
      left it.
    - [onmessage], [sendStats] and the five-second interval are functions
      on the worker's globals, run over a list of events; of the consumer
      in main.js, [getAircraftColor] is embedded. *)

From Stdlib Require Import ZArith Floats Reals Lra Lia Sorted.
From stdpp Require Import base option list strings gmap sorting.

Set Default Proof Using "Type".

(** ** JavaScript numbers *)

Class JSNumber (num : Type) := {
  num_of_Z : Z → num;            (* an integer literal *)
  num_0_1 : num;                 (* the literal 0.1 *)
  num_add : num → num → num;
  num_sub : num → num → num;
  num_mul : num → num → num;
  num_div : num → num → num;
  num_ltb : num → num → bool;    (* x < y *)
  Math_PI : num;
  Math_sqrt : num → num;
  Math_sin : num → num;
  Math_cos : num → num;
  Math_atan2 : num → num → num;
  Math_min : num → num → num
}.

Declare Scope js_scope.
Delimit Scope js_scope with js.
Notation "x + y" := (num_add x y) : js_scope.
Notation "x - y" := (num_sub x y) : js_scope.
Notation "x * y" := (num_mul x y) : js_scope.
Notation "x / y" := (num_div x y) : js_scope.
Notation "x <? y" := (num_ltb x y) : js_scope.
Notation "# z" := (num_of_Z z) (at level 1, format "# z") : js_scope.

(** *** IEEE 754 binary64 *)

Module Double.

Record Libm := {
  libm_sin : float → float;
  libm_cos : float → float;
  libm_atan2 : float → float → float
}.

(** What ECMAScript fixes of the three functions for a NaN argument. *)
Record nan_propagating (m : Libm) : Prop := {
  sin_nan : libm_sin m nan = nan;
  cos_nan : libm_cos m nan = nan;
  atan2_nan_l : ∀ x, libm_atan2 m nan x = nan;
  atan2_nan_r : ∀ y, libm_atan2 m y nan = nan
}.

Definition of_Z (z : Z) : float :=
  match z with
  | Z0 => 0%float
  | Zpos _ => of_uint63 (Uint63.of_Z z)
  | Zneg p => (- of_uint63 (Uint63.of_Z (Zpos p)))%float
  end.

(** [Math.min]: NaN if either argument is, and -0 below +0. *)
Definition min (x y : float) : float :=
  if is_nan x || is_nan y then nan
  else if (x <? y)%float then x
  else if (y <? x)%float then y
  else if (1 / x <? 0)%float then x else y.

(** [Math.PI], the double nearest to pi. *)
Definition PI : float := 0x1.921fb54442d18p+1%float.

Definition number (m : Libm) : JSNumber float := {|
  num_of_Z := of_Z;
  num_0_1 := 0x1.999999999999ap-4%float;   (* the double nearest to 0.1 *)
  num_add := PrimFloat.add;
  num_sub := PrimFloat.sub;
  num_mul := PrimFloat.mul;
  num_div := PrimFloat.div;
  num_ltb := PrimFloat.ltb;
  Math_PI := PI;
  Math_sqrt := PrimFloat.sqrt;
  Math_sin := libm_sin m;
  Math_cos := libm_cos m;
  Math_atan2 := libm_atan2 m;
  Math_min := min
|}.

(** A coarse libm made of the leading terms of the power series; it
    exhibits an implementation that meets [nan_propagating]. *)
Definition series_libm : Libm := {|
  libm_sin := fun x => (x - x * x * x / 6)%float;
  libm_cos := fun x => (1 - x * x / 2)%float;
  libm_atan2 := fun y x => (y / x)%float
|}.

End Double.

(** *** Exact real arithmetic *)

(** The operations are those of the real numbers.  [sqrt] of a negative
    number and division by zero have a value here (0) where binary64 has
    NaN or an infinity; the statements made in this instance are about
    arguments in the domain. *)

Module Exact.

Local Open Scope R_scope.

Definition ltb (x y : R) : bool := if Rlt_dec x y then true else false.

Definition atan2 (y x : R) : R :=
  if Rlt_dec 0 x then atan (y / x)
  else if Rlt_dec x 0 then
    (if Rle_dec 0 y then atan (y / x) + PI else atan (y / x) - PI)
  else if Rlt_dec 0 y then PI / 2
  else if Rlt_dec y 0 then - PI / 2
  else 0.

#[global] Instance number : JSNumber R := {|
  num_of_Z := IZR;
  num_0_1 := 1 / 10;
  num_add := Rplus;
  num_sub := Rminus;
  num_mul := Rmult;
  num_div := Rdiv;
  num_ltb := ltb;
  Math_PI := PI;
  Math_sqrt := sqrt;
  Math_sin := sin;
  Math_cos := cos;
  Math_atan2 := atan2;
  Math_min := Rmin
|}.

End Exact.

(** ** Outcomes of a computation that may throw *)

Inductive Outcome (A : Type) :=
  | Returned (a : A)
  | Thrown (message : string).
Arguments Returned {A} a.
Arguments Thrown {A} message.

(** ** Aircraft objects *)

Section Worker.

Context {num : Type} `{JSNumber num}.

Local Open Scope js_scope.

Record Aircraft := {
  icao24 : option string;      (* [None]: absent, undefined or null *)
  callsign : option string;
  latitude : num;
  longitude : num;
  altitude : num;
  velocity : num;
  heading : num;
  origin : option string;
  destination : option string;
  source : string;
  priority : Z;
  timestamp : Z;
  confidence : num
}.

(** Truthiness of an optional string: the empty string is falsy. *)
Definition truthy (v : option string) : bool :=
  match v with
  | Some s => negb (String.eqb s EmptyString)
  | None => false
  end.

(** [a || b] *)
Definition js_or (a b : option string) : option string :=
  if truthy a then a else b.

(** [aircraft.icao24 || aircraft.callsign], and [None] where the code's
    [!key] holds. *)
Definition entityKey (aircraft : Aircraft) : option string :=
  let key := js_or (icao24 aircraft) (callsign aircraft) in
  if truthy key then key else None.

(** ** fuseAircraftData *)

(** A [Map] with string keys, in insertion order. *)
Definition FusedMap := list (string * Aircraft).

Fixpoint map_get (key : string) (m : FusedMap) : option Aircraft :=
  match m with
  | [] => None
  | (k, v) :: m' => if String.eqb key k then Some v else map_get key m'
  end.

(** [set] keeps the position of a key that is there and appends a new one. *)
Fixpoint map_set (key : string) (v : Aircraft) (m : FusedMap) : FusedMap :=
  match m with
  | [] => [(key, v)]
  | (k, v') :: m' =>
      if String.eqb key k then (k, v) :: m' else (k, v') :: map_set key v m'
  end.

Definition map_values (m : FusedMap) : list Aircraft := map snd m.

(** The object stored at the first sighting of a key. *)
Definition seed (aircraft : Aircraft) : Aircraft := {|
  icao24 := icao24 aircraft;
  callsign := callsign aircraft;
  latitude := latitude aircraft;
  longitude := longitude aircraft;
  altitude := altitude aircraft;
  velocity := velocity aircraft;
  heading := heading aircraft;
  origin := origin aircraft;
  destination := destination aircraft;
  source := source aircraft;
  priority := priority aircraft;
  timestamp := timestamp aircraft;
  confidence := #1
|}.

(** [Object.assign(existing, aircraft); existing.confidence = 1.0]: every
    property of the incoming object overwrites the stored one. *)
Definition override (existing aircraft : Aircraft) : Aircraft := {|
  icao24 := icao24 aircraft;
  callsign := callsign aircraft;
  latitude := latitude aircraft;
  longitude := longitude aircraft;
  altitude := altitude aircraft;
  velocity := velocity aircraft;
  heading := heading aircraft;
  origin := origin aircraft;
  destination := destination aircraft;
  source := source aircraft;
  priority := priority aircraft;
  timestamp := timestamp aircraft;
  confidence := #1
|}.

Definition average (existing aircraft : Aircraft) : Aircraft := {|
  icao24 := icao24 existing;
  callsign := callsign existing;
  latitude := (latitude existing + latitude aircraft) / #2;
  longitude := (longitude existing + longitude aircraft) / #2;
  altitude := (altitude existing + altitude aircraft) / #2;
  velocity := (velocity existing + velocity aircraft) / #2;
  heading := (heading existing + heading aircraft) / #2;
  origin := origin existing;
  destination := destination existing;
  source := source existing;
  priority := priority existing;
  timestamp := timestamp existing;
  confidence := Math_min #1 (confidence existing + num_0_1)
|}.

Definition set_timestamp (t : Z) (existing : Aircraft) : Aircraft := {|
  icao24 := icao24 existing;
  callsign := callsign existing;
  latitude := latitude existing;
  longitude := longitude existing;
  altitude := altitude existing;
  velocity := velocity existing;
  heading := heading existing;
  origin := origin existing;
  destination := destination existing;
  source := source existing;
  priority := priority existing;
  timestamp := t;
  confidence := confidence existing
|}.

(** The [else] branch of the loop body: merge with the stored object. *)
Definition mergeInto (existing aircraft : Aircraft) : Aircraft :=
  let existing :=
    if (priority existing <? priority aircraft)%Z then
      override existing aircraft
    else if (priority aircraft =? priority existing)%Z then
      average existing aircraft
    else existing in
  if (timestamp existing <? timestamp aircraft)%Z then
    set_timestamp (timestamp aircraft) existing
  else existing.

(** The body of [aircraft.forEach]. *)
Definition fuseStep (fusedMap : FusedMap) (aircraft : Aircraft) : FusedMap :=
  match entityKey aircraft with
  | None => fusedMap
  | Some key =>
      match map_get key fusedMap with
      | None => map_set key (seed aircraft) fusedMap
      | Some existing => map_set key (mergeInto existing aircraft) fusedMap
      end
  end.

Definition fuseAircraftData (aircraft : list Aircraft) : list Aircraft :=
  map_values (fold_left fuseStep aircraft []).

(** ** removeDuplicates *)

(** Distance between two points in kilometres (haversine). *)
Definition calculateDistance (lat1 lon1 lat2 lon2 : num) : num :=
  let R := #6371 in
  let dLat := (lat2 - lat1) * Math_PI / #180 in
  let dLon := (lon2 - lon1) * Math_PI / #180 in
  let a := Math_sin (dLat / #2) * Math_sin (dLat / #2) +
           Math_cos (lat1 * Math_PI / #180) * Math_cos (lat2 * Math_PI / #180) *
           Math_sin (dLon / #2) * Math_sin (dLon / #2) in
  let c := #2 * Math_atan2 (Math_sqrt a) (Math_sqrt (#1 - a)) in
  R * c.

(** The callback of [uniqueAircraft.some]: within the 1 km threshold. *)
Definition near (aircraft existing : Aircraft) : bool :=
  calculateDistance (latitude existing) (longitude existing)
                    (latitude aircraft) (longitude aircraft) <? #1.

Record Dedup := {
  uniqueAircraft : list Aircraft;
  processedKeys : gset string
}.

(** The body of [aircraft.forEach]. *)
Definition dedupStep (st : Dedup) (aircraft : Aircraft) : Dedup :=
  match entityKey aircraft with
  | None => st
  | Some key =>
      if bool_decide (key ∈ processedKeys st) then st
      else
        let isDuplicate := existsb (near aircraft) (uniqueAircraft st) in
        if isDuplicate then st
        else {| uniqueAircraft := uniqueAircraft st ++ [aircraft];
                processedKeys := {[key]} ∪ processedKeys st |}
  end.

Definition removeDuplicates (aircraft : list Aircraft) : list Aircraft :=
  uniqueAircraft
    (fold_left dedupStep aircraft
       {| uniqueAircraft := []; processedKeys := ∅ |}).

(** ** updateCache *)

Definition maxAge : Z := 30000.

(** The first loop: an entry stays unless [now - value.timestamp > maxAge]. *)
Definition fresh (now : Z) (entry : string * Aircraft) : Prop :=
  ¬ (now - timestamp entry.2 > maxAge)%Z.

#[local] Instance fresh_dec now entry : Decision (fresh now entry).
Proof. unfold fresh. apply _. Defined.

Definition sweep (now : Z) (cache : gmap string Aircraft) :
    gmap string Aircraft :=
  filter (fresh now) cache.

(** The body of the second loop. *)
Definition upsert (cache : gmap string Aircraft) (aircraft : Aircraft) :
    gmap string Aircraft :=
  match entityKey aircraft with
  | Some key => <[key := aircraft]> cache
  | None => cache
  end.

Definition updateCache (now : Z) (aircraft : list Aircraft)
    (cache : gmap string Aircraft) : gmap string Aircraft :=
  fold_left upsert aircraft (sweep now cache).

(** ** The worker and processAircraftData *)

Inductive Message :=
  | aircraftData (data : list Aircraft)
  | systemStats (latency : Z) (processedCount : nat) (cacheSize : nat)
  | error (message : string).

(** The worker's globals, and the messages it has posted. *)
Record WorkerState := {
  aircraftCache : gmap string Aircraft;
  posted : list Message
}.

Definition Worker (A : Type) : Type := WorkerState → Outcome A * WorkerState.

#[export] Instance worker_ret : MRet Worker :=
  fun A a st => (Returned a, st).

#[export] Instance worker_bind : MBind Worker :=
  fun A B k c st =>
    match c st with
    | (Returned a, st') => k a st'
    | (Thrown message, st') => (Thrown message, st')
    end.

Definition throw {A} (message : string) : Worker A :=
  fun st => (Thrown message, st).

(** [try { body } catch (error) { handler(error.message) }] *)
Definition try_catch (body : Worker unit) (handler : string → Worker unit) :
    Worker unit :=
  fun st =>
    match body st with
    | (Returned tt, st') => (Returned tt, st')
    | (Thrown message, st') => handler message st'
    end.

Definition postMessage (m : Message) : Worker unit :=
  fun st => (Returned tt,
             {| aircraftCache := aircraftCache st;
                posted := posted st ++ [m] |}).

Definition getCache : Worker (gmap string Aircraft) :=
  fun st => (Returned (aircraftCache st), st).

Definition setCache (cache : gmap string Aircraft) : Worker unit :=
  fun st => (Returned tt,
             {| aircraftCache := cache; posted := posted st |}).

(** The value of a source's [aircraft] property. *)
Inductive AircraftProp :=
  | Falsy                                (* absent, undefined, null, ... *)
  | AircraftArray (l : list Aircraft)
  | NotAnArray.                          (* truthy, without [forEach] *)

(** The message object: a source is [None] where [data.local] (and so on)
    is falsy, and the whole of [data] is [None] where it is undefined. *)
Record Snapshot := {
  local : option AircraftProp;
  openSky : option AircraftProp;
  flightradar : option AircraftProp
}.

(** [{...aircraft, source, priority}] *)
Definition tag (src : string) (prio : Z) (aircraft : Aircraft) : Aircraft := {|
  icao24 := icao24 aircraft;
  callsign := callsign aircraft;
  latitude := latitude aircraft;
  longitude := longitude aircraft;
  altitude := altitude aircraft;
  velocity := velocity aircraft;
  heading := heading aircraft;
  origin := origin aircraft;
  destination := destination aircraft;
  source := src;
  priority := prio;
  timestamp := timestamp aircraft;
  confidence := confidence aircraft
|}.

Definition TypeError_undefined : string :=
  "Cannot read properties of undefined".
Definition TypeError_forEach : string :=
  "forEach is not a function".

(** Reading a property of [data]. *)
Definition property (data : option Snapshot)
    (p : Snapshot → option AircraftProp) : Worker (option AircraftProp) :=
  match data with
  | Some snapshot => mret (p snapshot)
  | None => throw TypeError_undefined
  end.

(** One [if (data.s && data.s.aircraft) { data.s.aircraft.forEach(...) }]. *)
Definition collect (data : option Snapshot)
    (p : Snapshot → option AircraftProp) (src : string) (prio : Z)
    (allAircraft : list Aircraft) : Worker (list Aircraft) :=
  feed ← property data p;
  match feed with
  | None | Some Falsy => mret allAircraft
  | Some (AircraftArray l) => mret (allAircraft ++ map (tag src prio) l)
  | Some NotAnArray => throw TypeError_forEach
  end.

(** The [try] block.  [now] is the reading of [Date.now()] in
    [updateCache] and [latency] the rounded difference of the two readings
    of [performance.now()]. *)
Definition process (data : option Snapshot) (now latency : Z) : Worker unit :=
  allAircraft ← collect data local "local" 3 [];
  allAircraft ← collect data openSky "opensky" 2 allAircraft;
  allAircraft ← collect data flightradar "flightradar24" 1 allAircraft;
  let fusedAircraft := fuseAircraftData allAircraft in
  let cleanedAircraft := removeDuplicates fusedAircraft in
  cache ← getCache;
  setCache (updateCache now cleanedAircraft cache) ;;
  postMessage (aircraftData cleanedAircraft) ;;
  cache ← getCache;
  postMessage (systemStats latency (length cleanedAircraft) (size cache)).

Definition processAircraftData (data : option Snapshot) (now latency : Z) :
    Worker unit :=
  try_catch (process data now latency)
            (fun message => postMessage (error message)).

End Worker.

Arguments Aircraft num : clear implicits.
Arguments FusedMap num : clear implicits.
Arguments Dedup num : clear implicits.
Arguments Message num : clear implicits.
Arguments WorkerState num : clear implicits.
Arguments Worker num A : clear implicits.
Arguments AircraftProp num : clear implicits.
Arguments Snapshot num : clear implicits.

(** ** Auxiliary definitions for the statements *)

Section Auxiliary.

Context {num : Type} `{JSNumber num}.

(** An entry of the fused map whose object has the key it is stored
    under. *)
Definition keyed (entry : string * Aircraft num) : Prop :=
  entityKey entry.2 = Some entry.1.

(** The state of the loop after a prefix of the input. *)
Definition dedupRun (aircraft : list (Aircraft num)) : Dedup num :=
  fold_left dedupStep aircraft {| uniqueAircraft := []; processedKeys := ∅ |}.

(** The keys of the accepted objects. *)
Definition acceptedKeys (accepted : list (Aircraft num)) : gset string :=
  list_to_set (omap entityKey accepted).

(** What a cycle over the flattened reports [allAircraft] leaves behind. *)
Definition completed (allAircraft : list (Aircraft num)) (now latency : Z)
    (st : WorkerState num) : WorkerState num :=
  let cleanedAircraft := removeDuplicates (fuseAircraftData allAircraft) in
  let cache := updateCache now cleanedAircraft (aircraftCache st) in
  {| aircraftCache := cache;
     posted := posted st ++
               [aircraftData cleanedAircraft;
                systemStats latency (length cleanedAircraft) (size cache)] |}.

(** The reports of one source, as [collect] appends them. *)
Definition reportsOf (feed : option (AircraftProp num)) (src : string)
    (prio : Z) : list (Aircraft num) :=
  match feed with
  | Some (AircraftArray l) => map (tag src prio) l
  | _ => []
  end.

Definition malformed (feed : option (AircraftProp num)) : bool :=
  match feed with
  | Some NotAnArray => true
  | _ => false
  end.

End Auxiliary.

(** A source that is absent, or whose list is empty. *)
Definition silent {num : Type} (feed : option (AircraftProp num)) : Prop :=
  feed = None ∨ feed = Some (AircraftArray []).

(** A point 2 km due north of the origin. *)
Definition two_km_north : R := (360 / (6371 * PI))%R.

(** Objects for the examples: a report known by its hex code only. *)
Definition sighting {num : Type} (hex : string) (lat lon rest : num)
    (prio ts : Z) : Aircraft num := {|
  icao24 := Some hex;
  callsign := None;
  latitude := lat;
  longitude := lon;
  altitude := rest;
  velocity := rest;
  heading := rest;
  origin := None;
  destination := None;
  source := "example";
  priority := prio;
  timestamp := ts;
  confidence := rest
|}.

(** The worker on binary64 numbers, with the series libm. *)
Definition binary64 : JSNumber float := Double.number Double.series_libm.

Definition sighting64 (hex : string) (lat lon rest : float) (prio ts : Z) :
    Aircraft float :=
  sighting hex lat lon rest prio ts.

Definition sightingR (hex : string) (lat lon rest : R) (prio ts : Z) :
    Aircraft R :=
  sighting hex lat lon rest prio ts.


(** ** Auxiliary definitions for the further properties *)

(** *** Fusion *)

Section FusionTerms.

Context {num : Type} `{JSNumber num}.

(** The fused map after a list of reports. *)
Definition fusedMapOf (reports : list (Aircraft num)) : FusedMap num :=
  fold_left fuseStep reports [].

(** The keys of a list of objects, in order. *)
Definition keysOf (l : list (Aircraft num)) : list string :=
  omap entityKey l.

(** The reports of one key, in arrival order. *)
Definition reportsOfKey (key : string) (reports : list (Aircraft num)) :
    list (Aircraft num) :=
  filter (fun r => entityKey r = Some key) reports.

(** The fusion of the reports of one key: the first is the seed and the
    others are merged into it in turn. *)
Definition fuseOne (reports : list (Aircraft num)) : option (Aircraft num) :=
  match reports with
  | [] => None
  | first :: rest => Some (fold_left mergeInto rest (seed first))
  end.

(** The properties that fusion takes from one report as a whole. *)
Definition sameIdentity (a b : Aircraft num) : Prop :=
  icao24 a = icao24 b ∧ callsign a = callsign b ∧
  origin a = origin b ∧ destination a = destination b ∧
  source a = source b ∧ priority a = priority b.


End FusionTerms.

(** A list of keys without its repetitions, each key at its first place. *)
Definition firstSightings (keys : list string) : list string :=
  reverse (remove_dups (reverse keys)).

(** *** Deduplication *)

Section DedupTerms.

Context {num : Type} `{JSNumber num}.

(** Whether the loop of [removeDuplicates] accepts a candidate, given the
    objects accepted so far. *)
Definition accepts (accepted : list (Aircraft num)) (candidate : Aircraft num) :
    bool :=
  match entityKey candidate with
  | None => false
  | Some key =>
      negb (bool_decide (key ∈ acceptedKeys accepted)) &&
      negb (existsb (near candidate) accepted)
  end.

(** A list in which every object has a key, and shares it with no earlier
    object and is near none of them. *)
Definition separated (l : list (Aircraft num)) : Prop :=
  ∀ pre e post, l = pre ++ e :: post →
    is_Some (entityKey e) ∧
    ∀ earlier, earlier ∈ pre →
      entityKey earlier ≠ entityKey e ∧ near e earlier = false.

End DedupTerms.

(** *** The cycle and its consumer *)

(** main.js: the colour of a marker, by the source of the aircraft. *)
Definition getAircraftColor (source : string) : string :=
  if String.eqb source "local" then "#00ff00"
  else if String.eqb source "opensky" then "#00d4ff"
  else if String.eqb source "flightradar24" then "#ff6b6b"
  else "#ffffff".

Section CycleTerms.

Context {num : Type} `{JSNumber num}.

(** The flattened reports of a snapshot, as the three loops push them. *)
Definition snapshotReports (s : Snapshot num) : list (Aircraft num) :=
  reportsOf (local s) "local" 3 ++
  reportsOf (openSky s) "opensky" 2 ++
  reportsOf (flightradar s) "flightradar24" 1.

(** A snapshot none of whose lists is without [forEach]. *)
Definition wellFormed (s : Snapshot num) : Prop :=
  malformed (local s) || malformed (openSky s) || malformed (flightradar s)
  = false.

(** The source tags and the priorities that go with them. *)
Definition knownSource (aircraft : Aircraft num) : Prop :=
  (source aircraft = "local" ∧ priority aircraft = 3%Z) ∨
  (source aircraft = "opensky" ∧ priority aircraft = 2%Z) ∨
  (source aircraft = "flightradar24" ∧ priority aircraft = 1%Z).

(** A cache each of whose entries is stored under its own key. *)
Definition cacheKeyed (cache : gmap string (Aircraft num)) : Prop :=
  ∀ key entry, cache !! key = Some entry → entityKey entry = Some key.

End CycleTerms.

(** *** The worker over its events: onmessage, sendStats and the interval *)

Section WorkerTerms.

Context {num : Type} `{JSNumber num}.

(** What the worker posts: the messages of a processing cycle, and the
    statistics of [sendStats], which have [lastUpdate] and no
    [processedCount]. *)
Inductive Reply :=
  | cycleReply (m : Message num)
  | statsReply (latency : Z) (cacheSize : nat) (lastUpdate : Z).

(** The globals of the worker between two events. *)
Record Globals := {
  cacheOf : gmap string (Aircraft num);
  outbox : list Reply
}.

(** [let lastProcessTime = 0], which nothing assigns. *)
Definition lastProcessTime : Z := 0.

(** [now] is the reading of [Date.now()]; the difference of two integers
    is its own [Math.round].  The constant fields of the message ([fps],
    [dataSource], [connected]) are left out. *)
Definition sendStats (now : Z) (g : Globals) : Globals :=
  let processingTime := (now - lastProcessTime)%Z in
  {| cacheOf := cacheOf g;
     outbox := outbox g ++ [statsReply processingTime (size (cacheOf g)) now] |}.

(** [self.onmessage], for a message [e.data = {type, data}]; [now] and
    [latency] are the clock readings of the branch that runs.  The messages
    that [processAircraftData] posts go to the same channel as those of
    [sendStats]. *)
Definition onmessage (type : string) (data : option (Snapshot num))
    (now latency : Z) (g : Globals) : Globals :=
  if String.eqb type "processData" then
    let st := {| aircraftCache := cacheOf g; posted := [] |} in
    let st' := (processAircraftData data now latency st).2 in
    {| cacheOf := aircraftCache st';
       outbox := outbox g ++ (cycleReply <$> posted st') |}
  else if String.eqb type "getStats" then sendStats now g
  else g.

(** What the worker reacts to: a message from the main thread, or the
    five-second interval that calls [sendStats]. *)
Inductive Event :=
  | messageEvent (type : string) (data : option (Snapshot num)) (now latency : Z)
  | intervalEvent (now : Z).

Definition handle (g : Globals) (ev : Event) : Globals :=
  match ev with
  | messageEvent type data now latency => onmessage type data now latency g
  | intervalEvent now => sendStats now g
  end.

(** The worker from its start, with an empty cache. *)
Definition runWorker (events : list Event) : Globals :=
  fold_left handle events {| cacheOf := ∅; outbox := [] |}.

(** A cache all of whose entries a fusion of some snapshot has produced. *)
Definition cacheFromFusion (cache : gmap string (Aircraft num)) : Prop :=
  ∀ key entry, cache !! key = Some entry →
    entityKey entry = Some key ∧
    ∃ s, entry ∈ fuseAircraftData (snapshotReports s).

End WorkerTerms.

Arguments Reply num : clear implicits.
Arguments Globals num : clear implicits.
Arguments Event num : clear implicits.

Section OutboxTerms.

Context {num : Type} `{JSNumber num}.

(** The cache size that a posted message reports, if it is one of the two
    kinds of statistics. *)
Definition reportedCacheSize (reply : Reply num) : option nat :=
  match reply with
  | cycleReply (systemStats _ _ cacheSize) => Some cacheSize
  | statsReply _ cacheSize _ => Some cacheSize
  | cycleReply _ => None
  end.

End OutboxTerms.

(** Snapshots for the examples. *)
Definition snapshot64 (l o f : option (AircraftProp float)) : Snapshot float :=
  {| local := l; openSky := o; flightradar := f |}.

Definition idle64 : WorkerState float :=
  {| aircraftCache := ∅; posted := [] |}.

(** * Properties *)

Set Warnings "-inexact-float".

(** ** Keys *)

Section Keys.

Context {num : Type} `{JSNumber num}.

Lemma truthy_Some (v : option string) :
  truthy v = true → ∃ s, v = Some s ∧ s ≠ EmptyString.
Proof.
  destruct v as [s|]; simpl; [|discriminate].
  intros Hs. exists s. split; [reflexivity|].
  intros ->. discriminate.
Qed.

Lemma entityKey_Some (aircraft : Aircraft num) (key : string) :
  entityKey aircraft = Some key ↔
  js_or (icao24 aircraft) (callsign aircraft) = Some key ∧ key ≠ EmptyString.
Proof.
  unfold entityKey.
  destruct (truthy (js_or (icao24 aircraft) (callsign aircraft))) eqn:Ht.
  - apply truthy_Some in Ht as (s & Hs & Hne). rewrite Hs. split.
    + intros [= <-]. done.
    + intros [[= <-] _]. done.
  - split; [discriminate|]. intros [Hs Hne]. rewrite Hs in Ht. simpl in Ht.
    destruct (String.eqb_spec key EmptyString); [done|discriminate].
Qed.

(** An absent hex code with an empty call sign gives no key. *)
Lemma entityKey_empty_callsign (aircraft : Aircraft num) :
  icao24 aircraft = None → callsign aircraft = Some EmptyString →
  entityKey aircraft = None.
Proof. unfold entityKey, js_or. intros -> ->. reflexivity. Qed.

Lemma entityKey_no_identifier (aircraft : Aircraft num) :
  icao24 aircraft = None → callsign aircraft = None →
  entityKey aircraft = None.
Proof. unfold entityKey, js_or. intros -> ->. reflexivity. Qed.

End Keys.

(** ** The fused map *)

Section FusedMapFacts.

Context {num : Type} `{JSNumber num}.

Local Open Scope js_scope.

Lemma map_get_set_eq (key : string) (v : Aircraft num) (m : FusedMap num) :
  map_get key (map_set key v m) = Some v.
Proof.
  induction m as [|[k v'] m IH]; simpl.
  - by rewrite String.eqb_refl.
  - destruct (String.eqb key k) eqn:E; simpl; rewrite E; [done|apply IH].
Qed.

Lemma map_get_set_ne (key key' : string) (v : Aircraft num) (m : FusedMap num) :
  key ≠ key' → map_get key' (map_set key v m) = map_get key' m.
Proof.
  intros Hne. induction m as [|[k v'] m IH]; simpl.
  - destruct (String.eqb_spec key' key); [congruence|done].
  - destruct (String.eqb_spec key k) as [->|]; simpl.
    + destruct (String.eqb_spec key' k); [congruence|done].
    + by rewrite IH.
Qed.

(** Whatever is stored by [map_set] obeys [P] if the old values and the
    new one do. *)
Lemma map_set_Forall (P : Aircraft num → Prop) key v (m : FusedMap num) :
  P v → Forall P (map_values m) → Forall P (map_values (map_set key v m)).
Proof.
  intros Hv. induction m as [|[k v'] m IH]; simpl; intros Hm.
  - by constructor.
  - inversion Hm; subst.
    destruct (String.eqb key k); simpl; constructor; auto.
Qed.

Lemma map_get_Forall (P : Aircraft num → Prop) key v (m : FusedMap num) :
  Forall P (map_values m) → map_get key m = Some v → P v.
Proof.
  induction m as [|[k v'] m IH]; simpl; [done|].
  intros Hm. inversion Hm; subst.
  destruct (String.eqb key k); [by intros [= <-]|auto].
Qed.

(** A report without a key leaves the map as it is. *)
Lemma fuseStep_no_key (m : FusedMap num) (aircraft : Aircraft num) :
  entityKey aircraft = None → fuseStep m aircraft = m.
Proof. unfold fuseStep. by intros ->. Qed.

(** An invariant of the stored objects that seeding and merging keep holds
    of everything [fuseAircraftData] returns. *)
Lemma fuse_invariant (P : Aircraft num → Prop) :
  (∀ aircraft, P (seed aircraft)) →
  (∀ existing aircraft, P existing → P (mergeInto existing aircraft)) →
  ∀ reports, Forall P (fuseAircraftData reports).
Proof.
  intros Hseed Hmerge reports. unfold fuseAircraftData.
  assert (Hgen : ∀ m, Forall P (map_values m) →
                      Forall P (map_values (fold_left fuseStep reports m))).
  { induction reports as [|r reports IH]; simpl; [done|].
    intros m Hm. apply IH. unfold fuseStep.
    destruct (entityKey r) as [key|]; [|done].
    destruct (map_get key m) as [existing|] eqn:Hget.
    - apply map_set_Forall; [|done]. apply Hmerge.
      by eapply map_get_Forall.
    - by apply map_set_Forall. }
  apply Hgen. constructor.
Qed.

(** Two reports of one key fuse into the merge of the second into the
    seed of the first. *)
Lemma fuse_pair (a b : Aircraft num) (key : string) :
  entityKey a = Some key → entityKey b = Some key →
  fuseAircraftData [a; b] = [mergeInto (seed a) b].
Proof.
  intros Ha Hb. unfold fuseAircraftData. simpl. unfold fuseStep at 2.
  rewrite Ha. simpl. unfold fuseStep. rewrite Hb. simpl.
  by rewrite String.eqb_refl.
Qed.

(** *** Every fused object has the key it is stored under *)

Lemma entityKey_seed (aircraft : Aircraft num) :
  entityKey (seed aircraft) = entityKey aircraft.
Proof. reflexivity. Qed.

Lemma entityKey_mergeInto (existing aircraft : Aircraft num) key :
  entityKey existing = Some key → entityKey aircraft = Some key →
  entityKey (mergeInto existing aircraft) = Some key.
Proof.
  intros He Ha. unfold mergeInto. cbv zeta.
  destruct (priority existing <? priority aircraft)%Z.
  { destruct (_ <? _)%Z; exact Ha. }
  destruct (priority aircraft =? priority existing)%Z;
    destruct (_ <? _)%Z; exact He.
Qed.

Lemma map_get_keyed key v (m : FusedMap num) :
  Forall keyed m → map_get key m = Some v → entityKey v = Some key.
Proof.
  induction m as [|[k v'] m IH]; simpl; [done|].
  intros Hm. inversion Hm as [|? ? Hkv Hrest]; subst.
  destruct (String.eqb_spec key k) as [->|]; [|auto].
  by intros [= <-].
Qed.

Lemma map_set_keyed key v (m : FusedMap num) :
  entityKey v = Some key → Forall keyed m → Forall keyed (map_set key v m).
Proof.
  intros Hv. induction m as [|[k v'] m IH]; simpl; intros Hm.
  - by repeat constructor.
  - inversion Hm; subst.
    destruct (String.eqb_spec key k) as [->|]; constructor; auto.
Qed.

Lemma fuseStep_keyed (m : FusedMap num) (aircraft : Aircraft num) :
  Forall keyed m → Forall keyed (fuseStep m aircraft).
Proof.
  intros Hm. unfold fuseStep.
  destruct (entityKey aircraft) as [key|] eqn:Hkey; [|done].
  destruct (map_get key m) as [existing|] eqn:Hget.
  - apply map_set_keyed; [|done].
    apply entityKey_mergeInto; [|done]. by eapply map_get_keyed.
  - apply map_set_keyed; [|done]. by rewrite entityKey_seed.
Qed.

(** So no object that [fuseAircraftData] returns is without a key. *)
Lemma fused_has_key (reports : list (Aircraft num)) (fused : Aircraft num) :
  fused ∈ fuseAircraftData reports → ∃ key, entityKey fused = Some key.
Proof.
  unfold fuseAircraftData, map_values.
  assert (Hall : ∀ m, Forall keyed m →
                      Forall keyed (fold_left fuseStep reports m)).
  { induction reports as [|r reports IH]; simpl; [done|].
    intros m Hm. by apply IH, fuseStep_keyed. }
  intros Hin. apply list_elem_of_fmap in Hin as ([k v] & -> & Hin).
  exists k. assert (Hnil : Forall keyed ([] : FusedMap num)) by constructor.
  specialize (Hall [] Hnil).
  rewrite Forall_forall in Hall. by apply (Hall (k, v)).
Qed.

(** *** A merge at equal priority *)

Lemma mergeInto_equal_priority (existing aircraft : Aircraft num) :
  priority aircraft = priority existing →
  latitude (mergeInto existing aircraft) =
    (latitude existing + latitude aircraft) / #2 ∧
  longitude (mergeInto existing aircraft) =
    (longitude existing + longitude aircraft) / #2 ∧
  altitude (mergeInto existing aircraft) =
    (altitude existing + altitude aircraft) / #2 ∧
  velocity (mergeInto existing aircraft) =
    (velocity existing + velocity aircraft) / #2 ∧
  heading (mergeInto existing aircraft) =
    (heading existing + heading aircraft) / #2 ∧
  confidence (mergeInto existing aircraft) =
    Math_min #1 (confidence existing + num_0_1).
Proof.
  intros Hp. unfold mergeInto. rewrite Hp.
  rewrite Z.ltb_irrefl, Z.eqb_refl. simpl.
  destruct (_ <? _)%Z; done.
Qed.

(** *** The time stamp of a merge *)

Lemma mergeInto_timestamp_override (existing aircraft : Aircraft num) :
  (priority existing < priority aircraft)%Z →
  timestamp (mergeInto existing aircraft) = timestamp aircraft.
Proof.
  intros Hp. unfold mergeInto.
  destruct (Z.ltb_spec (priority existing) (priority aircraft)); [|lia].
  simpl. by rewrite Z.ltb_irrefl.
Qed.


End FusedMapFacts.

(** ** Deduplication *)

Section DedupFacts.

Context {num : Type} `{JSNumber num}.

Lemma elem_of_acceptedKeys (key : string) (accepted : list (Aircraft num)) :
  key ∈ acceptedKeys accepted ↔
  ∃ existing, existing ∈ accepted ∧ entityKey existing = Some key.
Proof.
  unfold acceptedKeys. rewrite elem_of_list_to_set, list_elem_of_omap.
  done.
Qed.

Lemma removeDuplicates_run (aircraft : list (Aircraft num)) :
  removeDuplicates aircraft = uniqueAircraft (dedupRun aircraft).
Proof. reflexivity. Qed.

Lemma dedupRun_snoc (pre : list (Aircraft num)) (candidate : Aircraft num) :
  dedupRun (pre ++ [candidate]) = dedupStep (dedupRun pre) candidate.
Proof. unfold dedupRun. by rewrite fold_left_app. Qed.

(** [processedKeys] holds exactly the keys of [uniqueAircraft]. *)
Lemma dedupStep_keys (st : Dedup num) (candidate : Aircraft num) :
  processedKeys st = acceptedKeys (uniqueAircraft st) →
  processedKeys (dedupStep st candidate) =
  acceptedKeys (uniqueAircraft (dedupStep st candidate)).
Proof.
  intros Hst. unfold dedupStep.
  destruct (entityKey candidate) as [key|] eqn:Hkey; [|done].
  case_bool_decide; [done|].
  destruct (existsb _ _); [done|]. simpl.
  unfold acceptedKeys. rewrite omap_app, list_to_set_app_L. simpl.
  rewrite Hkey. simpl. rewrite Hst. unfold acceptedKeys.
  rewrite (right_id_L ∅ (∪)). apply (comm_L (∪)).
Qed.

Lemma dedupRun_keys (aircraft : list (Aircraft num)) :
  processedKeys (dedupRun aircraft) =
  acceptedKeys (removeDuplicates aircraft).
Proof.
  induction aircraft as [|candidate pre IH] using rev_ind.
  - reflexivity.
  - rewrite removeDuplicates_run, dedupRun_snoc.
    apply dedupStep_keys. by rewrite IH.
Qed.

Lemma existsb_near (candidate : Aircraft num) (accepted : list (Aircraft num)) :
  existsb (near candidate) accepted = true ↔
  ∃ existing, existing ∈ accepted ∧ near candidate existing = true.
Proof.
  rewrite existsb_exists. setoid_rewrite <- list_elem_of_In. done.
Qed.

(** A candidate without a key is skipped. *)
Lemma removeDuplicates_snoc_no_key pre (candidate : Aircraft num) :
  entityKey candidate = None →
  removeDuplicates (pre ++ [candidate]) = removeDuplicates pre.
Proof.
  intros Hkey. rewrite !removeDuplicates_run, dedupRun_snoc.
  unfold dedupStep. by rewrite Hkey.
Qed.

(** A candidate is discarded when its key is among the accepted ones or
    when it is near an accepted object. *)
Lemma removeDuplicates_snoc_discard pre (candidate : Aircraft num) key :
  entityKey candidate = Some key →
  (∃ existing, existing ∈ removeDuplicates pre ∧
               (entityKey existing = Some key ∨
                near candidate existing = true)) →
  removeDuplicates (pre ++ [candidate]) = removeDuplicates pre.
Proof.
  intros Hkey (existing & Hin & Hdup).
  rewrite (removeDuplicates_run (pre ++ _)), dedupRun_snoc.
  unfold dedupStep. rewrite Hkey, dedupRun_keys.
  case_bool_decide as Hseen; [done|].
  destruct (existsb _ _) eqn:Hnear; [done|]. exfalso.
  destruct Hdup as [Hk|Hn].
  - apply Hseen, elem_of_acceptedKeys. eauto.
  - apply not_true_iff_false in Hnear. apply Hnear, existsb_near. eauto.
Qed.

(** Otherwise it is appended as it is. *)
Lemma removeDuplicates_snoc_accept pre (candidate : Aircraft num) key :
  entityKey candidate = Some key →
  (∀ existing, existing ∈ removeDuplicates pre →
               entityKey existing ≠ Some key ∧
               near candidate existing = false) →
  removeDuplicates (pre ++ [candidate]) = removeDuplicates pre ++ [candidate].
Proof.
  intros Hkey Hnone.
  rewrite (removeDuplicates_run (pre ++ _)), dedupRun_snoc.
  unfold dedupStep. rewrite Hkey, dedupRun_keys.
  case_bool_decide as Hseen.
  { apply elem_of_acceptedKeys in Hseen as (existing & Hin & Hk).
    by destruct (Hnone existing Hin). }
  destruct (existsb _ _) eqn:Hnear; [|done].
  apply existsb_near in Hnear as (existing & Hin & Hn).
  destruct (Hnone existing Hin). congruence.
Qed.

(** A single object with a key is accepted. *)
Lemma removeDuplicates_single (first : Aircraft num) key :
  entityKey first = Some key → removeDuplicates [first] = [first].
Proof.
  intros Hkey.
  apply (removeDuplicates_snoc_accept [] first key Hkey).
  intros existing Hin. by apply elem_of_nil in Hin.
Qed.

(** Two objects with different keys: the second is kept exactly when it
    is not near the first. *)
Lemma removeDuplicates_pair (first second : Aircraft num) k1 k2 :
  entityKey first = Some k1 → entityKey second = Some k2 → k1 ≠ k2 →
  removeDuplicates [first; second] =
  if near second first then [first] else [first; second].
Proof.
  intros H1 H2 Hne.
  pose proof (removeDuplicates_single first k1 H1) as Hfirst.
  change [first; second] with ([first] ++ [second]).
  destruct (near second first) eqn:Hnear.
  - rewrite (removeDuplicates_snoc_discard [first] second k2 H2), Hfirst;
      [done|].
    exists first. rewrite Hfirst. split; [apply list_elem_of_here|by right].
  - rewrite (removeDuplicates_snoc_accept [first] second k2 H2), Hfirst;
      [done|].
    intros existing Hin. rewrite Hfirst in Hin.
    apply list_elem_of_singleton in Hin as ->. split; [congruence|done].
Qed.

End DedupFacts.

(** ** The cache *)

Section CacheFacts.

Context {num : Type} `{JSNumber num}.

Implicit Types cache : gmap string (Aircraft num).

(** The sweep keeps an entry exactly when its age is at most [maxAge]. *)
Lemma sweep_lookup_Some now cache key value :
  sweep now cache !! key = Some value ↔
  cache !! key = Some value ∧ (now - timestamp value ≤ maxAge)%Z.
Proof.
  unfold sweep. rewrite map_lookup_filter_Some. unfold fresh. simpl.
  split; intros [? ?]; split; auto; lia.
Qed.

Lemma sweep_lookup_expired now cache key value :
  cache !! key = Some value → (now - timestamp value > maxAge)%Z →
  sweep now cache !! key = None.
Proof.
  intros Hget Hold. unfold sweep. apply map_lookup_filter_None_2. right.
  intros value' Hget'. rewrite Hget in Hget'. injection Hget' as <-.
  unfold fresh. simpl. lia.
Qed.

Lemma upsert_no_key cache (aircraft : Aircraft num) :
  entityKey aircraft = None → upsert cache aircraft = cache.
Proof. unfold upsert. by intros ->. Qed.

(** The second loop leaves the keys alone that no object of the batch has. *)
Lemma upsertAll_lookup_other (batch : list (Aircraft num)) cache key :
  (∀ aircraft, aircraft ∈ batch → entityKey aircraft ≠ Some key) →
  fold_left upsert batch cache !! key = cache !! key.
Proof.
  revert cache. induction batch as [|aircraft batch IH]; intros cache Hno.
  - reflexivity.
  - simpl. rewrite IH.
    + unfold upsert. destruct (entityKey aircraft) as [k|] eqn:Hk; [|done].
      apply lookup_insert_ne. intros ->.
      by apply (Hno aircraft); [apply list_elem_of_here|].
    + intros a Ha. apply Hno. by apply list_elem_of_further.
Qed.

(** The last object of the batch with a given key is what the cache holds
    for it afterwards. *)
Lemma upsertAll_lookup_last (pre post : list (Aircraft num)) aircraft cache key :
  entityKey aircraft = Some key →
  (∀ later, later ∈ post → entityKey later ≠ Some key) →
  fold_left upsert (pre ++ aircraft :: post) cache !! key = Some aircraft.
Proof.
  intros Hkey Hpost. rewrite fold_left_app. simpl.
  rewrite upsertAll_lookup_other by done.
  unfold upsert at 1. rewrite Hkey. apply lookup_insert_eq.
Qed.

End CacheFacts.

(** ** The processing cycle *)

Section CycleFacts.

Context {num : Type} `{JSNumber num}.

(** Runs the monadic operations of the worker on their state. *)
Ltac run_worker :=
  cbv [process collect property mbind worker_bind mret worker_ret throw
       try_catch getCache setCache postMessage completed reportsOf];
  cbn [local openSky flightradar aircraftCache posted].

(** The [try] block throws exactly on a malformed message, and then the
    worker's state is as it was; otherwise it completes the cycle. *)
Lemma process_outcome (data : option (Snapshot num)) now latency st :
  match data with
  | None => process data now latency st = (Thrown TypeError_undefined, st)
  | Some s =>
      if malformed (local s) || malformed (openSky s) ||
         malformed (flightradar s)
      then process data now latency st = (Thrown TypeError_forEach, st)
      else process data now latency st =
           (Returned (),
            completed (reportsOf (local s) "local" 3 ++
                       reportsOf (openSky s) "opensky" 2 ++
                       reportsOf (flightradar s) "flightradar24" 1)
                      now latency st)
  end.
Proof.
  destruct data as [[l o f]|]; [|reflexivity]. simpl.
  destruct l as [[]|], o as [[]|], f as [[]|]; simpl; run_worker;
    rewrite ?app_nil_r, <- ?app_assoc; reflexivity.
Qed.

End CycleFacts.

(** ** Binary64 arithmetic: NaN is absorbing *)

Section NaN.

Local Open Scope float_scope.

Lemma Prim2SF_nan : Prim2SF nan = S754_nan.
Proof. reflexivity. Qed.

(** Settle [op x nan = nan] and [op nan x = nan] from the specification of
    [op] on [spec_float]. *)
Ltac absorb spec x :=
  apply Prim2SF_inj; rewrite spec, Prim2SF_nan;
  destruct (Prim2SF x) as [[]|[]| |[] ? ?]; reflexivity.

Lemma add_nan_l x : nan + x = nan.
Proof. absorb add_spec x. Qed.

Lemma add_nan_r x : x + nan = nan.
Proof. absorb add_spec x. Qed.

Lemma sub_nan_l x : nan - x = nan.
Proof. absorb sub_spec x. Qed.

Lemma sub_nan_r x : x - nan = nan.
Proof. absorb sub_spec x. Qed.

Lemma mul_nan_l x : nan * x = nan.
Proof. absorb mul_spec x. Qed.

Lemma mul_nan_r x : x * nan = nan.
Proof. absorb mul_spec x. Qed.

Lemma div_nan_l x : nan / x = nan.
Proof. absorb div_spec x. Qed.

Lemma div_nan_r x : x / nan = nan.
Proof. absorb div_spec x. Qed.

Lemma sqrt_nan : PrimFloat.sqrt nan = nan.
Proof. reflexivity. Qed.

Lemma ltb_nan_l x : (nan <? x) = false.
Proof.
  rewrite ltb_spec, Prim2SF_nan.
  destruct (Prim2SF x) as [[]|[]| |[] ? ?]; reflexivity.
Qed.

Lemma series_libm_nan_propagating : Double.nan_propagating Double.series_libm.
Proof.
  split; simpl.
  - reflexivity.
  - reflexivity.
  - apply div_nan_l.
  - apply div_nan_r.
Qed.

Context (m : Double.Libm) (Hm : Double.nan_propagating m).

(** The distance to a point with a NaN coordinate is NaN. *)
Lemma calculateDistance_nan (lat1 lon1 lat2 lon2 : float) :
  lat2 = nan ∨ lon2 = nan →
  calculateDistance (H := Double.number m) lat1 lon1 lat2 lon2 = nan.
Proof using Hm.
  destruct Hm as [Hsin Hcos Hl Hr].
  assert (Ha : ∀ a, a = nan →
    (Double.of_Z 6371 *
     (Double.of_Z 2 *
      Double.libm_atan2 m (PrimFloat.sqrt a)
        (PrimFloat.sqrt (Double.of_Z 1 - a)))) = nan).
  { intros a ->. by rewrite sqrt_nan, Hl, !mul_nan_r. }
  intros [-> | ->]; unfold calculateDistance; simpl; apply Ha.
  - by rewrite sub_nan_l, mul_nan_l, !div_nan_l, Hsin, mul_nan_l, add_nan_l.
  - by rewrite sub_nan_l, mul_nan_l, !div_nan_l, Hsin, !mul_nan_r, add_nan_r.
Qed.

(** So no accepted object is near a candidate with a NaN coordinate. *)
Lemma near_nan (candidate existing : Aircraft float) :
  latitude candidate = nan ∨ longitude candidate = nan →
  near (H := Double.number m) candidate existing = false.
Proof using Hm.
  intros Hnan. unfold near. rewrite calculateDistance_nan by done.
  apply ltb_nan_l.
Qed.

End NaN.

(** ** The haversine formula in exact arithmetic *)

Section Haversine.

Local Open Scope R_scope.






Lemma calculateDistance_exact (lat1 lon1 lat2 lon2 : R) :
  calculateDistance lat1 lon1 lat2 lon2 =
  let dLat := (lat2 - lat1) * PI / 180 in
  let dLon := (lon2 - lon1) * PI / 180 in
  let a := sin (dLat / 2) * sin (dLat / 2) +
           cos (lat1 * PI / 180) * cos (lat2 * PI / 180) *
           sin (dLon / 2) * sin (dLon / 2) in
  6371 * (2 * Exact.atan2 (sqrt a) (sqrt (1 - a))).
Proof. reflexivity. Qed.



Lemma calculateDistance_two_km :
  calculateDistance 0 0 two_km_north 0 = 2.
Proof.
  rewrite calculateDistance_exact. cbv zeta. unfold two_km_north.
  pose proof PI_RGT_0 as H0. pose proof PI2_1 as H1.
  replace ((360 / (6371 * PI) - 0) * PI / 180 / 2) with (1 / 6371)
    by (field; lra).
  replace ((0 - 0) * PI / 180 / 2) with 0 by lra.
  rewrite sin_0, !Rmult_0_r, Rplus_0_r.
  set (y := 1 / 6371).
  assert (Hy : 0 < y < 1) by (unfold y; lra).
  assert (Hs : 0 <= sin y) by (apply sin_ge_0; lra).
  assert (Hc : 0 < cos y) by (apply cos_gt_0; lra).
  rewrite sqrt_square by done.
  replace (1 - sin y * sin y) with (cos y * cos y)
    by (pose proof (sin2_cos2 y) as E; unfold Rsqr in E; lra).
  rewrite sqrt_square by lra.
  unfold Exact.atan2. destruct (Rlt_dec 0 (cos y)) as [_|Hn]; [|lra].
  change (sin y / cos y) with (tan y). rewrite atan_tan by lra.
  unfold y. lra.
Qed.

(** In exact arithmetic [near] is the comparison of real numbers. *)
Lemma near_exact (candidate existing : Aircraft R) :
  near candidate existing = true ↔
  calculateDistance (latitude existing) (longitude existing)
    (latitude candidate) (longitude candidate) < 1.
Proof.
  unfold near.
  change (calculateDistance (latitude existing) (longitude existing)
            (latitude candidate) (longitude candidate) <? #1)%js
    with (Exact.ltb
            (calculateDistance (latitude existing) (longitude existing)
               (latitude candidate) (longitude candidate)) 1).
  unfold Exact.ltb. destruct (Rlt_dec _ _); split; auto; discriminate.
Qed.

End Haversine.

(** * The claims *)

(** A loop whose body ignores an element runs as if the element were not
    in the list. *)
Lemma fold_left_skip {A B} (f : A → B → A) (x : B) (pre post : list B) s :
  (∀ s', f s' x = s') →
  fold_left f (pre ++ x :: post) s = fold_left f (pre ++ post) s.
Proof. intros Hx. rewrite !fold_left_app. simpl. by rewrite Hx. Qed.

(** ** Fusion *)

(** C1: two reports of one key with priorities 3 and 1 fuse, in either
    arrival order, into one object whose latitude, longitude, altitude and
    heading are those of the priority-3 report and whose confidence is
    1.0. *)
Theorem fuse_priority_override {num : Type} `{JSNumber num}
    (high low : Aircraft num) (key : string) (reports : list (Aircraft num)) :
  entityKey high = Some key → entityKey low = Some key →
  priority high = 3%Z → priority low = 1%Z →
  reports = [low; high] ∨ reports = [high; low] →
  ∃ fused, fuseAircraftData reports = [fused] ∧
           latitude fused = latitude high ∧
           longitude fused = longitude high ∧
           altitude fused = altitude high ∧
           heading fused = heading high ∧
           confidence fused = (#1)%js.
Proof.
  intros Hhigh Hlow Hp3 Hp1 [-> | ->].
  - rewrite (fuse_pair low high key) by done.
    eexists. split; [reflexivity|].
    unfold mergeInto. simpl. rewrite Hp1, Hp3. simpl.
    rewrite Z.ltb_irrefl. done.
  - rewrite (fuse_pair high low key) by done.
    eexists. split; [reflexivity|].
    unfold mergeInto. simpl. rewrite Hp1, Hp3. simpl.
    destruct (_ <? _)%Z; done.
Qed.

Lemma fuse_priority_override_witness :
  ∃ fused,
    fuseAircraftData (H := binary64)
      [sighting64 "4b1805" 35.5 51.25 9000 1 2000;
       sighting64 "4b1805" 35.75 51.5 9500 3 1000] = [fused] ∧
    latitude fused = 35.75%float ∧ longitude fused = 51.5%float ∧
    altitude fused = 9500%float ∧ heading fused = 9500%float ∧
    confidence fused = 1%float.
Proof.
  apply (fuse_priority_override (H := binary64)
           (sighting64 "4b1805" 35.75 51.5 9500 3 1000)
           (sighting64 "4b1805" 35.5 51.25 9000 1 2000) "4b1805").
  - reflexivity.
  - reflexivity.
  - reflexivity.
  - reflexivity.
  - left. reflexivity.
Defined.

(** C2: two reports of one key and equal priority fuse into one object
    whose latitude, longitude, altitude, velocity and heading are the means
    [(existing + incoming) / 2] and whose confidence is
    [min(1.0, confidence + 0.1)]; the same holds of every merge into a
    stored object of equal priority; and in binary64 the positions
    (10.0, 20.0) and (10.0, 20.2) at priority 2 give longitude 20.1 and
    confidence 1.0. *)
Theorem fuse_equal_priority_average :
  (∀ (num : Type) (H : JSNumber num) (first second : Aircraft num) key,
     entityKey first = Some key → entityKey second = Some key →
     priority second = priority first →
     ∃ fused, fuseAircraftData [first; second] = [fused] ∧
       latitude fused = ((latitude first + latitude second) / #2)%js ∧
       longitude fused = ((longitude first + longitude second) / #2)%js ∧
       altitude fused = ((altitude first + altitude second) / #2)%js ∧
       velocity fused = ((velocity first + velocity second) / #2)%js ∧
       heading fused = ((heading first + heading second) / #2)%js ∧
       confidence fused = Math_min (#1)%js (#1 + num_0_1)%js) ∧
  (∀ (num : Type) (H : JSNumber num) (existing aircraft : Aircraft num),
     priority aircraft = priority existing →
     let merged := mergeInto existing aircraft in
     latitude merged = ((latitude existing + latitude aircraft) / #2)%js ∧
     longitude merged = ((longitude existing + longitude aircraft) / #2)%js ∧
     altitude merged = ((altitude existing + altitude aircraft) / #2)%js ∧
     velocity merged = ((velocity existing + velocity aircraft) / #2)%js ∧
     heading merged = ((heading existing + heading aircraft) / #2)%js ∧
     confidence merged =
       Math_min (#1)%js (confidence existing + num_0_1)%js) ∧
  (∀ (m : Double.Libm) (first second : Aircraft float) key,
     entityKey first = Some key → entityKey second = Some key →
     priority first = 2%Z → priority second = 2%Z →
     latitude first = 10.0%float → longitude first = 20.0%float →
     latitude second = 10.0%float → longitude second = 20.2%float →
     ∃ fused,
       fuseAircraftData (H := Double.number m) [first; second] = [fused] ∧
       latitude fused = 10.0%float ∧ longitude fused = 20.1%float ∧
       confidence fused = 1.0%float).
Proof.
  split; [|split].
  - intros num H first second key H1 H2 Hp.
    rewrite (fuse_pair first second key) by done.
    eexists. split; [reflexivity|].
    by apply (mergeInto_equal_priority (seed first) second).
  - intros num H existing aircraft Hp.
    by apply mergeInto_equal_priority.
  - intros m first second key H1 H2 Hp1 Hp2 Hlat1 Hlon1 Hlat2 Hlon2.
    rewrite (fuse_pair (H := Double.number m) first second key) by done.
    eexists. split; [reflexivity|].
    destruct (mergeInto_equal_priority (H := Double.number m)
                (seed (H := Double.number m) first) second)
      as (Elat & Elon & _ & _ & _ & Econf); [simpl; congruence|].
    rewrite Elat, Elon, Econf. simpl.
    rewrite Hlat1, Hlon1, Hlat2, Hlon2. done.
Qed.

Lemma fuse_equal_priority_average_witness :
  (∃ fused,
     fuseAircraftData (H := binary64)
       [sighting64 "4b1805" 35.5 51.25 9000 1 1000;
        sighting64 "4b1805" 35.75 51.5 9500 1 2000] = [fused] ∧
     altitude fused = 9250%float ∧ velocity fused = 9250%float ∧
     heading fused = 9250%float) ∧
  (∃ fused,
     fuseAircraftData (H := binary64)
       [sighting64 "4b1805" 10.0 20.0 9000 2 1000;
        sighting64 "4b1805" 10.0 20.2 9500 2 2000] = [fused] ∧
     latitude fused = 10.0%float ∧ longitude fused = 20.1%float ∧
     confidence fused = 1.0%float) ∧
  altitude
    (mergeInto (H := binary64) (sighting64 "4b1805" 10.0 20.0 9000 2 1000)
       (sighting64 "4b1805" 10.0 20.2 9500 2 2000)) = 9250%float.
Proof.
  destruct fuse_equal_priority_average as (Hpair & Hmerge & Hexample).
  split; [|split].
  - destruct (Hpair float binary64
                (sighting64 "4b1805" 35.5 51.25 9000 1 1000)
                (sighting64 "4b1805" 35.75 51.5 9500 1 2000) "4b1805")
      as (fused & Hfused & _ & _ & Halt & Hvel & Hhead & _).
    + reflexivity.
    + reflexivity.
    + reflexivity.
    + exists fused. rewrite Halt, Hvel, Hhead. split; [exact Hfused|].
      repeat split; reflexivity.
  - apply (Hexample Double.series_libm
             (sighting64 "4b1805" 10.0 20.0 9000 2 1000)
             (sighting64 "4b1805" 10.0 20.2 9500 2 2000) "4b1805");
      reflexivity.
  - destruct (Hmerge float binary64
                (sighting64 "4b1805" 10.0 20.0 9000 2 1000)
                (sighting64 "4b1805" 10.0 20.2 9500 2 2000))
      as (_ & _ & -> & _); reflexivity.
Defined.

(** C3: the time stamp after a merge.  Where the incoming report does not
    override (equal or lower priority) the stored time stamp becomes the
    maximum of the two ([mergeInto_timestamp_no_override]); in the override
    branch [Object.assign] has already replaced the stored time stamp when
    the comparison runs, so the incoming one stays even if it is older.
    Here a priority-1 report observed at 2000 is followed by a priority-3
    report observed at 1000: the fused time stamp is 1000, not 2000. *)
Theorem fuse_override_regresses_timestamp :
  let low := sighting64 "4b1805" 35.5 51.25 9000 1 2000 in
  let high := sighting64 "4b1805" 35.75 51.5 9500 3 1000 in
  map timestamp (fuseAircraftData (H := binary64) [low; high]) = [1000%Z] ∧
  Z.max (timestamp low) (timestamp high) = 2000%Z.
Proof. split; reflexivity. Qed.

(** C9: in binary64 every object that [fuseAircraftData] returns has
    confidence exactly 1.0, whatever the reports: the seed is 1.0, an
    override resets to 1.0, and [min(1.0, 1.0 + 0.1)] is 1.0 again. *)
Theorem fused_confidence_is_one (m : Double.Libm)
    (reports : list (Aircraft float)) :
  Forall (fun fused => confidence fused = 1.0%float)
         (fuseAircraftData (H := Double.number m) reports) ∧
  Math_min (JSNumber := Double.number m) 1.0%float
    (num_add (JSNumber := Double.number m) 1.0%float
       (num_0_1 (JSNumber := Double.number m))) = 1.0%float.
Proof.
  split; [|reflexivity].
  apply (fuse_invariant (H := Double.number m)).
  - reflexivity.
  - intros existing aircraft Hone. unfold mergeInto. cbv zeta.
    destruct (priority existing <? priority aircraft)%Z.
    { destruct (_ <? _)%Z; reflexivity. }
    destruct (priority aircraft =? priority existing)%Z.
    + destruct (_ <? _)%Z; simpl; rewrite Hone; reflexivity.
    + destruct (_ <? _)%Z; simpl; exact Hone.
Qed.

(** C10: a report whose hex code is absent and whose call sign is the
    empty string has no key, and so each of the three loops passes over
    it: the results of [fuseAircraftData], [removeDuplicates] and
    [updateCache] are those of the input without it. *)
Theorem empty_callsign_is_no_identifier {num : Type} `{JSNumber num}
    (aircraft : Aircraft num) :
  icao24 aircraft = None → callsign aircraft = Some EmptyString →
  entityKey aircraft = None ∧
  (∀ pre post,
     fuseAircraftData (pre ++ aircraft :: post) =
     fuseAircraftData (pre ++ post)) ∧
  (∀ pre post,
     removeDuplicates (pre ++ aircraft :: post) =
     removeDuplicates (pre ++ post)) ∧
  (∀ now pre post cache,
     updateCache now (pre ++ aircraft :: post) cache =
     updateCache now (pre ++ post) cache).
Proof.
  intros Hicao Hcall.
  pose proof (entityKey_empty_callsign aircraft Hicao Hcall) as Hkey.
  split; [done|]. split; [|split].
  - intros pre post. unfold fuseAircraftData. f_equal.
    apply fold_left_skip. intros m. by apply fuseStep_no_key.
  - intros pre post. unfold removeDuplicates. f_equal.
    apply fold_left_skip. intros st. unfold dedupStep. by rewrite Hkey.
  - intros now pre post cache. unfold updateCache.
    apply fold_left_skip. intros c. by apply upsert_no_key.
Qed.

Lemma empty_callsign_is_no_identifier_witness :
  let blank : Aircraft float := {|
    icao24 := None; callsign := Some EmptyString;
    latitude := 35.5%float; longitude := 51.25%float;
    altitude := 9000%float; velocity := 450%float; heading := 90%float;
    origin := None; destination := None;
    source := "local"; priority := 3; timestamp := 1000;
    confidence := 1%float |} in
  entityKey blank = None ∧
  fuseAircraftData (H := binary64)
    ([sighting64 "4b1805" 35.5 51.25 9000 1 2000] ++ blank :: []) =
  fuseAircraftData (H := binary64)
    ([sighting64 "4b1805" 35.5 51.25 9000 1 2000] ++ []).
Proof.
  intros blank.
  destruct (empty_callsign_is_no_identifier (H := binary64) blank)
    as (Hkey & Hfuse & _ & _).
  - reflexivity.
  - reflexivity.
  - split; [exact Hkey|apply Hfuse].
Defined.

(** ** Deduplication *)



(** C7: in binary64, with a libm that returns NaN on NaN, the distance
    from any object to a candidate whose latitude or longitude is NaN is
    NaN, [NaN < 1.0] is false, and so the candidate is accepted whenever no
    accepted object has its key. *)
Theorem nan_candidate_is_no_proximity_duplicate (m : Double.Libm)
    (candidate : Aircraft float) :
  Double.nan_propagating m →
  latitude candidate = nan ∨ longitude candidate = nan →
  (∀ existing : Aircraft float,
     calculateDistance (H := Double.number m)
       (latitude existing) (longitude existing)
       (latitude candidate) (longitude candidate) = nan) ∧
  (nan <? 1.0)%float = false ∧
  (∀ pre key,
     entityKey candidate = Some key →
     (∀ existing, existing ∈ removeDuplicates (H := Double.number m) pre →
                  entityKey existing ≠ Some key) →
     removeDuplicates (H := Double.number m) (pre ++ [candidate]) =
     removeDuplicates (H := Double.number m) pre ++ [candidate]).
Proof.
  intros Hm Hnan. split; [|split].
  - intros existing. by apply calculateDistance_nan.
  - reflexivity.
  - intros pre key Hkey Hnew.
    apply (removeDuplicates_snoc_accept (H := Double.number m) pre candidate
             key Hkey).
    intros existing Hin. split; [by apply Hnew|by apply near_nan].
Qed.

Lemma nan_candidate_is_no_proximity_duplicate_witness :
  removeDuplicates (H := binary64)
    ([sighting64 "4b1805" 35.5 51.25 9000 1 2000] ++
     [sighting64 "4b1806" nan 51.25 9000 1 2000]) =
  removeDuplicates (H := binary64)
    [sighting64 "4b1805" 35.5 51.25 9000 1 2000] ++
  [sighting64 "4b1806" nan 51.25 9000 1 2000].
Proof.
  destruct (nan_candidate_is_no_proximity_duplicate Double.series_libm
              (sighting64 "4b1806" nan 51.25 9000 1 2000))
    as (_ & _ & Haccept).
  - exact series_libm_nan_propagating.
  - left. reflexivity.
  - apply (Haccept [sighting64 "4b1805" 35.5 51.25 9000 1 2000] "4b1806").
    + reflexivity.
    + intros existing Hin.
      rewrite (removeDuplicates_single (H := binary64) _ "4b1805") in Hin
        by reflexivity.
      apply list_elem_of_singleton in Hin as ->. discriminate.
Defined.

(** ** The cache *)

(** C6: [updateCache] sweeps and then inserts.  Of an entry whose key no
    object of the batch has, nothing is left when its time stamp is more
    than [maxAge] = 30000 ms before [now] (31000 ms, say), and it stays as
    it is otherwise (29000 ms, say); for a key of the batch the cache
    afterwards holds the whole object of the batch (the last one, should
    several have the key), whatever entry there was before. *)
Theorem updateCache_sweeps_then_upserts {num : Type}
    (now : Z) (batch : list (Aircraft num))
    (cache : gmap string (Aircraft num)) :
  maxAge = 30000%Z ∧
  (∀ key entry,
     cache !! key = Some entry →
     (∀ aircraft, aircraft ∈ batch → entityKey aircraft ≠ Some key) →
     ((now - timestamp entry > 30000)%Z →
      updateCache now batch cache !! key = None) ∧
     ((now - timestamp entry ≤ 30000)%Z →
      updateCache now batch cache !! key = Some entry)) ∧
  (∀ pre aircraft post key,
     batch = pre ++ aircraft :: post →
     entityKey aircraft = Some key →
     (∀ later, later ∈ post → entityKey later ≠ Some key) →
     updateCache now batch cache !! key = Some aircraft).
Proof.
  split; [reflexivity|]. split.
  - intros key entry Hentry Hother. unfold updateCache.
    rewrite upsertAll_lookup_other by done. split.
    + intros Hold. by apply (sweep_lookup_expired now cache key entry).
    + intros Hyoung. by apply sweep_lookup_Some.
  - intros pre aircraft post key -> Hkey Hlast. unfold updateCache.
    by apply upsertAll_lookup_last.
Qed.

Lemma updateCache_sweeps_then_upserts_witness :
  let now := 100000%Z in
  let stale := sighting64 "4b1805" 35.5 51.25 9000 1 (now - 31000) in
  let recent := sighting64 "4b1806" 36.5 52.25 9000 1 (now - 29000) in
  let replaced := sighting64 "4b1807" 37.5 53.25 9000 1 (now - 31000) in
  let current := sighting64 "4b1807" 37.75 53.5 9500 3 (now - 40000) in
  let cache : gmap string (Aircraft float) :=
    <["4b1805" := stale]> (<["4b1806" := recent]>
      (<["4b1807" := replaced]> ∅)) in
  updateCache now [current] cache !! "4b1805" = None ∧
  updateCache now [current] cache !! "4b1806" = Some recent ∧
  updateCache now [current] cache !! "4b1807" = Some current.
Proof.
  intros now stale recent replaced current cache.
  destruct (updateCache_sweeps_then_upserts now [current] cache)
    as (_ & Hkept & Hbatch).
  assert (Hother : ∀ key, key ≠ "4b1807" →
            ∀ aircraft : Aircraft float,
              aircraft ∈ [current] → entityKey aircraft ≠ Some key).
  { intros key Hne aircraft Hin.
    apply list_elem_of_singleton in Hin as ->.
    change (entityKey current) with (Some "4b1807"). congruence. }
  split; [|split].
  - apply (Hkept "4b1805" stale).
    + reflexivity.
    + apply Hother. discriminate.
    + simpl. lia.
  - apply (Hkept "4b1806" recent).
    + reflexivity.
    + apply Hother. discriminate.
    + simpl. lia.
  - apply (Hbatch [] current [] "4b1807").
    + reflexivity.
    + reflexivity.
    + intros later Hin. by apply elem_of_nil in Hin.
Defined.

(** ** The processing cycle *)

(** C4: if the [try] block of [processAircraftData] throws, the cycle
    posts the error message and nothing else, and the cache is what it was
    before the cycle. *)
Theorem failed_cycle_keeps_cache {num : Type} `{JSNumber num}
    (data : option (Snapshot num)) (now latency : Z)
    (st st1 : WorkerState num) (message : string) :
  process data now latency st = (Thrown message, st1) →
  ∃ st', processAircraftData data now latency st = (Returned (), st') ∧
         posted st' = posted st ++ [error message] ∧
         aircraftCache st' = aircraftCache st.
Proof.
  intros Hthrow. unfold processAircraftData, try_catch.
  pose proof (process_outcome data now latency st) as Hout.
  destruct data as [s|].
  - destruct (malformed (local s) || malformed (openSky s) ||
              malformed (flightradar s)).
    + rewrite Hout in Hthrow. injection Hthrow as <- <-.
      rewrite Hout. eexists. split; [reflexivity|]. done.
    + rewrite Hout in Hthrow. discriminate.
  - rewrite Hout in Hthrow. injection Hthrow as <- <-.
    rewrite Hout. eexists. split; [reflexivity|]. done.
Qed.

Lemma failed_cycle_keeps_cache_witness :
  let st : WorkerState float :=
    {| aircraftCache :=
         {["4b1805" := sighting64 "4b1805" 35.5 51.25 9000 1 2000]};
       posted := [] |} in
  let data : option (Snapshot float) :=
    Some {| local :=
              Some (AircraftArray
                      [sighting64 "4b1806" 36.5 52.25 9000 1 40000]);
            openSky := Some NotAnArray;
            flightradar := None |} in
  ∃ st', processAircraftData (H := binary64) data 50000 7 st =
           (Returned (), st') ∧
         posted st' = posted st ++ [error TypeError_forEach] ∧
         aircraftCache st' = aircraftCache st.
Proof.
  intros st data.
  apply (failed_cycle_keeps_cache (H := binary64) data 50000 7 st st).
  reflexivity.
Defined.

(** C8: for a snapshot in which every source is absent or has an empty
    list, [processAircraftData] posts no error: it posts the empty list and
    statistics with [processedCount] 0. *)
Theorem empty_snapshot_succeeds {num : Type} `{JSNumber num}
    (s : Snapshot num) (now latency : Z) (st : WorkerState num) :
  silent (local s) → silent (openSky s) → silent (flightradar s) →
  ∃ st', processAircraftData (Some s) now latency st = (Returned (), st') ∧
         posted st' =
         posted st ++
         [aircraftData [];
          systemStats latency 0 (size (aircraftCache st'))].
Proof.
  intros Hl Ho Hf. unfold processAircraftData, try_catch.
  pose proof (process_outcome (Some s) now latency st) as Hout.
  simpl in Hout.
  assert (Hsilent : ∀ (feed : option (AircraftProp num)) src prio,
            silent feed →
            malformed feed = false ∧ reportsOf feed src prio = []).
  { intros feed src prio [-> | ->]; done. }
  destruct (Hsilent _ "local" 3%Z Hl) as [El Rl].
  destruct (Hsilent _ "opensky" 2%Z Ho) as [Eo Ro].
  destruct (Hsilent _ "flightradar24" 1%Z Hf) as [Ef Rf].
  rewrite El, Eo, Ef, Rl, Ro, Rf in Hout. simpl in Hout.
  rewrite Hout. eexists. split; [reflexivity|]. reflexivity.
Qed.

Lemma empty_snapshot_succeeds_witness :
  let st : WorkerState float :=
    {| aircraftCache :=
         {["4b1805" := sighting64 "4b1805" 35.5 51.25 9000 1 2000]};
       posted := [] |} in
  ∃ st', processAircraftData (H := binary64)
           (Some {| local := None;
                    openSky := Some (AircraftArray []);
                    flightradar := None |}) 50000 7 st =
           (Returned (), st') ∧
         posted st' =
         posted st ++
         [aircraftData [];
          systemStats 7 0 (size (aircraftCache st'))].
Proof.
  intros st.
  apply (empty_snapshot_succeeds (H := binary64)).
  - left. reflexivity.
  - right. reflexivity.
  - left. reflexivity.
Defined.

(** * Further lemmas *)

(** ** The fused map, key by key *)

Section FusionExtra.

Context {num : Type} `{JSNumber num}.

Lemma map_get_None (key : string) (m : FusedMap num) :
  map_get key m = None ↔ key ∉ m.*1.
Proof.
  induction m as [|[k v] m IH]; simpl.
  - split; [intros _; apply not_elem_of_nil|done].
  - rewrite not_elem_of_cons.
    destruct (String.eqb_spec key k) as [->|Hne]; split.
    + discriminate.
    + intros [? _]. done.
    + intros Hn. split; [done|]. by apply IH.
    + intros [_ Hn]. by apply IH.
Qed.

Lemma map_get_Some_elem (key : string) v (m : FusedMap num) :
  map_get key m = Some v → (key, v) ∈ m.
Proof.
  induction m as [|[k v'] m IH]; simpl; [done|].
  destruct (String.eqb_spec key k) as [->|Hne].
  - intros [= ->]. apply list_elem_of_here.
  - intros Hget. apply list_elem_of_further. by apply IH.
Qed.

Lemma elem_map_get (key : string) v (m : FusedMap num) :
  NoDup m.*1 → (key, v) ∈ m → map_get key m = Some v.
Proof.
  induction m as [|[k v'] m IH]; simpl.
  - intros _ Hin. by apply elem_of_nil in Hin.
  - intros Hnd Hin. apply NoDup_cons in Hnd as [Hk Hnd].
    apply elem_of_cons in Hin as [[= -> ->]|Hin].
    + by rewrite String.eqb_refl.
    + destruct (String.eqb_spec key k) as [->|Hne]; [|by apply IH].
      exfalso. apply Hk. apply list_elem_of_fmap. by exists (k, v).
Qed.

Lemma map_set_fst_present key v (m : FusedMap num) :
  key ∈ m.*1 → (map_set key v m).*1 = m.*1.
Proof.
  induction m as [|[k v'] m IH]; simpl.
  - intros Hin. by apply elem_of_nil in Hin.
  - intros Hin. destruct (String.eqb_spec key k) as [->|Hne]; [done|].
    simpl. f_equal. apply IH.
    apply elem_of_cons in Hin as [?|?]; done.
Qed.

Lemma map_set_fst_absent key v (m : FusedMap num) :
  key ∉ m.*1 → (map_set key v m).*1 = m.*1 ++ [key].
Proof.
  induction m as [|[k v'] m IH]; simpl; [done|].
  intros Hin. apply not_elem_of_cons in Hin as [Hne Hin].
  destruct (String.eqb_spec key k) as [->|_]; [done|].
  simpl. f_equal. by apply IH.
Qed.

Lemma fusedMapOf_snoc (pre : list (Aircraft num)) (r : Aircraft num) :
  fusedMapOf (pre ++ [r]) = fuseStep (fusedMapOf pre) r.
Proof. unfold fusedMapOf. by rewrite fold_left_app. Qed.

(** The keys of the fused map after one more report. *)
Lemma fuseStep_fst (m : FusedMap num) (r : Aircraft num) :
  (fuseStep m r).*1 =
  match entityKey r with
  | None => m.*1
  | Some key => if bool_decide (key ∈ m.*1) then m.*1 else m.*1 ++ [key]
  end.
Proof.
  unfold fuseStep. destruct (entityKey r) as [key|]; [|done].
  destruct (map_get key m) as [existing|] eqn:Hget.
  - assert (Hin : key ∈ m.*1).
    { apply map_get_Some_elem in Hget. apply list_elem_of_fmap.
      by exists (key, existing). }
    rewrite bool_decide_true by done. by apply map_set_fst_present.
  - apply map_get_None in Hget.
    rewrite bool_decide_false by done. by apply map_set_fst_absent.
Qed.

Lemma firstSightings_snoc (keys : list string) (key : string) :
  firstSightings (keys ++ [key]) =
  if bool_decide (key ∈ firstSightings keys) then firstSightings keys
  else firstSightings keys ++ [key].
Proof.
  unfold firstSightings. rewrite reverse_snoc. simpl.
  destruct (decide_rel elem_of key (reverse keys)) as [Hin|Hnin].
  - rewrite bool_decide_true; [done|].
    by rewrite elem_of_reverse, elem_of_remove_dups.
  - rewrite bool_decide_false.
    + by rewrite reverse_cons.
    + by rewrite elem_of_reverse, elem_of_remove_dups.
Qed.

Lemma keysOf_snoc (pre : list (Aircraft num)) (r : Aircraft num) :
  keysOf (pre ++ [r]) =
  match entityKey r with
  | None => keysOf pre
  | Some key => keysOf pre ++ [key]
  end.
Proof.
  unfold keysOf. rewrite omap_app. simpl.
  destruct (entityKey r); simpl; [done|by rewrite app_nil_r].
Qed.

(** The keys of the fused map are the keys of the reports, each at its
    first sighting. *)
Lemma fusedMapOf_fst (reports : list (Aircraft num)) :
  (fusedMapOf reports).*1 = firstSightings (keysOf reports).
Proof.
  induction reports as [|r pre IH] using rev_ind; [done|].
  rewrite fusedMapOf_snoc, fuseStep_fst, keysOf_snoc, IH.
  destruct (entityKey r) as [key|]; [|done].
  by rewrite firstSightings_snoc.
Qed.

Lemma firstSightings_NoDup (keys : list string) : NoDup (firstSightings keys).
Proof.
  unfold firstSightings. rewrite reverse_Permutation.
  apply NoDup_remove_dups.
Qed.

Lemma elem_of_firstSightings (keys : list string) key :
  key ∈ firstSightings keys ↔ key ∈ keys.
Proof.
  unfold firstSightings.
  by rewrite elem_of_reverse, elem_of_remove_dups, elem_of_reverse.
Qed.

Lemma fusedMapOf_keyed (reports : list (Aircraft num)) :
  Forall keyed (fusedMapOf reports).
Proof.
  induction reports as [|r pre IH] using rev_ind; [constructor|].
  rewrite fusedMapOf_snoc. by apply fuseStep_keyed.
Qed.

(** The keys of the fused objects are the keys they are stored under. *)
Lemma keysOf_fused (reports : list (Aircraft num)) :
  keysOf (fuseAircraftData reports) = (fusedMapOf reports).*1.
Proof.
  unfold fuseAircraftData, map_values. fold (fusedMapOf reports).
  pose proof (fusedMapOf_keyed reports) as Hk.
  induction (fusedMapOf reports) as [|[k v] m IH]; [done|].
  inversion Hk as [|? ? Hkv Hrest]; subst. unfold keyed in Hkv. simpl in Hkv.
  unfold keysOf in *. simpl. rewrite Hkv. simpl. f_equal. by apply IH.
Qed.

(** *** Fusion works key by key *)

Lemma reportsOfKey_snoc key (pre : list (Aircraft num)) (r : Aircraft num) :
  reportsOfKey key (pre ++ [r]) =
  if decide (entityKey r = Some key) then reportsOfKey key pre ++ [r]
  else reportsOfKey key pre.
Proof.
  unfold reportsOfKey. rewrite filter_app.
  destruct (decide (entityKey r = Some key)) as [Hk|Hk].
  - by rewrite (filter_cons_True _ r []).
  - rewrite (filter_cons_False _ r []) by done. apply app_nil_r.
Qed.

Lemma fuseOne_snoc (rs : list (Aircraft num)) (r : Aircraft num) :
  fuseOne (rs ++ [r]) =
  match fuseOne rs with
  | None => Some (seed r)
  | Some existing => Some (mergeInto existing r)
  end.
Proof.
  destruct rs as [|first rest]; simpl; [done|].
  by rewrite fold_left_app.
Qed.

(** What the fused map holds for a key is the fusion of the reports of
    that key alone. *)
Lemma fusedMapOf_get (key : string) (reports : list (Aircraft num)) :
  map_get key (fusedMapOf reports) = fuseOne (reportsOfKey key reports).
Proof.
  induction reports as [|r pre IH] using rev_ind; [done|].
  rewrite fusedMapOf_snoc, reportsOfKey_snoc. unfold fuseStep.
  destruct (entityKey r) as [k|] eqn:Hk.
  - destruct (decide (Some k = Some key)) as [[= ->]|Hne].
    + rewrite fuseOne_snoc, <- IH.
      destruct (map_get key (fusedMapOf pre)); apply map_get_set_eq.
    + assert (k ≠ key) by congruence.
      destruct (map_get k (fusedMapOf pre));
        by rewrite map_get_set_ne.
  - by destruct (decide (None = Some key)).
Qed.

Lemma fusedMapOf_NoDup (reports : list (Aircraft num)) :
  NoDup (fusedMapOf reports).*1.
Proof. rewrite fusedMapOf_fst. apply firstSightings_NoDup. Qed.

(** A fused object is the fusion of the reports of its key. *)
Lemma fused_is_fuseOne (reports : list (Aircraft num)) fused key :
  fused ∈ fuseAircraftData reports → entityKey fused = Some key →
  fuseOne (reportsOfKey key reports) = Some fused.
Proof.
  intros Hin Hkey. rewrite <- fusedMapOf_get.
  unfold fuseAircraftData, map_values in Hin. fold (fusedMapOf reports) in Hin.
  apply list_elem_of_fmap in Hin as ([k v] & -> & Hin). simpl in Hkey.
  pose proof (fusedMapOf_keyed reports) as Hkeyed.
  rewrite Forall_forall in Hkeyed. specialize (Hkeyed _ Hin).
  unfold keyed in Hkeyed. simpl in Hkeyed.
  assert (k = key) as -> by congruence.
  apply elem_map_get; [apply fusedMapOf_NoDup|done].
Qed.

Lemma fuseOne_is_fused (reports : list (Aircraft num)) fused key :
  fuseOne (reportsOfKey key reports) = Some fused →
  fused ∈ fuseAircraftData reports.
Proof.
  rewrite <- fusedMapOf_get. intros Hget.
  apply map_get_Some_elem in Hget.
  unfold fuseAircraftData, map_values. fold (fusedMapOf reports).
  apply list_elem_of_fmap. by exists (key, fused).
Qed.

(** *** The winning report *)

Lemma sameIdentity_seed (r : Aircraft num) : sameIdentity (seed r) r.
Proof. by repeat split. Qed.

(** After a merge the identity is that of the incoming report if its
    priority is higher, and stays otherwise. *)
Lemma mergeInto_identity (existing aircraft : Aircraft num) :
  if (priority existing <? priority aircraft)%Z
  then sameIdentity (mergeInto existing aircraft) aircraft
  else sameIdentity (mergeInto existing aircraft) existing.
Proof.
  unfold mergeInto. cbv zeta.
  destruct (priority existing <? priority aircraft)%Z.
  { destruct (_ <? _)%Z; by repeat split. }
  destruct (priority aircraft =? priority existing)%Z;
    destruct (_ <? _)%Z; by repeat split.
Qed.

Lemma fold_mergeInto_winner (rest : list (Aircraft num)) :
  ∀ existing winner : Aircraft num,
    sameIdentity existing winner →
    ∃ winner', (winner' = winner ∨ winner' ∈ rest) ∧
      sameIdentity (fold_left mergeInto rest existing) winner' ∧
      (priority winner ≤ priority winner')%Z ∧
      (∀ r, r ∈ rest → priority r ≤ priority winner')%Z.
Proof.
  induction rest as [|a rest IH]; intros existing winner Hid; simpl.
  - exists winner. split; [by left|]. split; [done|]. split; [lia|].
    intros r Hr. by apply elem_of_nil in Hr.
  - pose proof (mergeInto_identity existing a) as Hstep.
    assert (Hp : priority existing = priority winner) by apply Hid.
    destruct (Z.ltb_spec (priority existing) (priority a)) as [Hlt|Hge].
    + destruct (IH _ a Hstep) as (w & Hw & Hwid & Hle & Hall).
      exists w. split; [|split; [done|split]].
      * right. destruct Hw as [->|Hw];
          [apply list_elem_of_here|by apply list_elem_of_further].
      * lia.
      * intros r Hr. apply elem_of_cons in Hr as [->|Hr]; [done|by apply Hall].
    + assert (Hid' : sameIdentity (mergeInto existing a) winner).
      { destruct Hstep as (? & ? & ? & ? & ? & ?).
        destruct Hid as (? & ? & ? & ? & ? & ?).
        repeat split; congruence. }
      destruct (IH _ winner Hid') as (w & Hw & Hwid & Hle & Hall).
      exists w. split; [|split; [done|split; [done|]]].
      * destruct Hw as [->|Hw]; [by left|right; by apply list_elem_of_further].
      * intros r Hr. apply elem_of_cons in Hr as [->|Hr]; [lia|by apply Hall].
Qed.

(** *** Time stamps when no priority goes up *)



End FusionExtra.

Section FusionMore.

Context {num : Type} `{JSNumber num}.

Lemma map_set_absent key v (m : FusedMap num) :
  key ∉ m.*1 → map_set key v m = m ++ [(key, v)].
Proof.
  induction m as [|[k v'] m IH]; simpl; [done|].
  intros Hin. apply not_elem_of_cons in Hin as [Hne Hin].
  destruct (String.eqb_spec key k) as [->|_]; [done|].
  f_equal. by apply IH.
Qed.

(** Reports with pairwise different keys are copied one by one. *)
Lemma fusedMapOf_distinct (reports : list (Aircraft num)) :
  NoDup (keysOf reports) →
  map_values (fusedMapOf reports) =
  seed <$> filter (fun r => is_Some (entityKey r)) reports.
Proof.
  induction reports as [|r pre IH] using rev_ind; [done|].
  rewrite keysOf_snoc, fusedMapOf_snoc, filter_app, fmap_app.
  unfold fuseStep. destruct (entityKey r) as [key|] eqn:Hkey.
  - intros [Hpre [Hnew _]]%NoDup_app.
    assert (Hfresh : key ∉ (fusedMapOf pre).*1).
    { rewrite fusedMapOf_fst, elem_of_firstSightings. intros Hin.
      apply (Hnew key Hin). apply list_elem_of_here. }
    apply map_get_None in Hfresh as Hget. rewrite Hget.
    rewrite map_set_absent by done. unfold map_values in *.
    rewrite map_app, IH by done. simpl.
    rewrite (filter_cons_True _ r []) by (rewrite Hkey; by eexists).
    done.
  - intros Hpre. rewrite IH by done.
    rewrite (filter_cons_False _ r []);
      [by rewrite app_nil_r|].
    rewrite Hkey. by intros [? ?].
Qed.

End FusionMore.

(** ** The loop of removeDuplicates *)

Section DedupExtra.

Context {num : Type} `{JSNumber num}.

Lemma removeDuplicates_snoc (pre : list (Aircraft num)) candidate :
  removeDuplicates (pre ++ [candidate]) =
  if accepts (removeDuplicates pre) candidate
  then removeDuplicates pre ++ [candidate] else removeDuplicates pre.
Proof.
  rewrite (removeDuplicates_run (pre ++ _)), dedupRun_snoc.
  unfold dedupStep, accepts. rewrite dedupRun_keys.
  destruct (entityKey candidate) as [key|]; [|done].
  case_bool_decide; [done|]. simpl.
  by destruct (existsb _ _).
Qed.

Lemma accepts_true (accepted : list (Aircraft num)) candidate :
  accepts accepted candidate = true ↔
  is_Some (entityKey candidate) ∧
  ∀ earlier, earlier ∈ accepted →
    entityKey earlier ≠ entityKey candidate ∧ near candidate earlier = false.
Proof.
  unfold accepts. destruct (entityKey candidate) as [key|] eqn:Hkey.
  - rewrite andb_true_iff, !negb_true_iff, bool_decide_eq_false.
    rewrite elem_of_acceptedKeys. split.
    + intros [Hk Hn]. split; [by eexists|]. intros e He. split.
      * intros Hek. apply Hk. by exists e.
      * destruct (near candidate e) eqn:Hnear; [|done].
        assert (existsb (near candidate) accepted = true) as Hex
          by (apply existsb_near; eauto).
        congruence.
    + intros [_ Hall]. split.
      * intros (e & He & Hek). by destruct (Hall e He).
      * apply not_true_iff_false. intros Hex.
        apply existsb_near in Hex as (e & He & Hnear).
        destruct (Hall e He). congruence.
  - split; [discriminate|]. intros [[? ?] _]. discriminate.
Qed.

Lemma snoc_eq_middle {A} (pre post l : list A) (e c : A) :
  l ++ [c] = pre ++ e :: post →
  (post = [] ∧ pre = l ∧ e = c) ∨
  (∃ post', post = post' ++ [c] ∧ l = pre ++ e :: post').
Proof.
  destruct post as [|x post' _] using rev_ind.
  - intros Heq. left. apply app_inj_tail in Heq as [-> ->]. done.
  - intros Heq. right. exists post'.
    change (pre ++ e :: post' ++ [x]) with (pre ++ (e :: post') ++ [x]) in Heq.
    rewrite app_assoc in Heq. apply app_inj_tail in Heq as [-> ->]. done.
Qed.

Lemma separated_nil : separated ([] : list (Aircraft num)).
Proof. intros pre e post Heq. by destruct pre. Qed.

Lemma separated_snoc (l : list (Aircraft num)) candidate :
  separated (l ++ [candidate]) ↔
  separated l ∧ accepts l candidate = true.
Proof.
  rewrite accepts_true. split.
  - intros Hsep. split.
    + intros pre e post ->.
      apply (Hsep pre e (post ++ [candidate])).
      by rewrite <- app_assoc.
    + apply (Hsep l candidate []). done.
  - intros [Hsep Hacc] pre e post Heq.
    apply snoc_eq_middle in Heq as [(-> & -> & ->)|(post' & -> & ->)].
    + done.
    + by apply (Hsep pre e post').
Qed.

Lemma removeDuplicates_separated (aircraft : list (Aircraft num)) :
  separated (removeDuplicates aircraft).
Proof.
  induction aircraft as [|candidate pre IH] using rev_ind.
  - apply separated_nil.
  - rewrite removeDuplicates_snoc.
    destruct (accepts _ _) eqn:Hacc; [|done].
    by apply separated_snoc.
Qed.

Lemma removeDuplicates_fixed (aircraft : list (Aircraft num)) :
  separated aircraft → removeDuplicates aircraft = aircraft.
Proof.
  induction aircraft as [|candidate pre IH] using rev_ind; [done|].
  intros [Hpre Hacc]%separated_snoc.
  rewrite removeDuplicates_snoc, IH by done. by rewrite Hacc.
Qed.

Lemma removeDuplicates_sublist (aircraft : list (Aircraft num)) :
  removeDuplicates aircraft `sublist_of` aircraft.
Proof.
  induction aircraft as [|candidate pre IH] using rev_ind; [done|].
  rewrite removeDuplicates_snoc. destruct (accepts _ _).
  - by apply sublist_app.
  - by apply sublist_inserts_r.
Qed.

(** What has been accepted stays accepted. *)
Lemma removeDuplicates_prefix (pre post : list (Aircraft num)) e :
  e ∈ removeDuplicates pre → e ∈ removeDuplicates (pre ++ post).
Proof.
  intros He. induction post as [|x post IH] using rev_ind.
  - by rewrite app_nil_r.
  - rewrite app_assoc, removeDuplicates_snoc.
    destruct (accepts _ _); [|done]. apply elem_of_app. by left.
Qed.

Lemma removeDuplicates_represents (aircraft : list (Aircraft num)) candidate :
  candidate ∈ aircraft → is_Some (entityKey candidate) →
  ∃ kept, kept ∈ removeDuplicates aircraft ∧
    (kept = candidate ∨ entityKey kept = entityKey candidate ∨
     near candidate kept = true).
Proof.
  intros Hin Hkey.
  apply list_elem_of_split in Hin as (pre & post & ->).
  change (pre ++ candidate :: post) with (pre ++ [candidate] ++ post).
  rewrite app_assoc.
  assert (Hhere : ∃ kept, kept ∈ removeDuplicates (pre ++ [candidate]) ∧
    (kept = candidate ∨ entityKey kept = entityKey candidate ∨
     near candidate kept = true)).
  { rewrite removeDuplicates_snoc.
    destruct (accepts _ _) eqn:Hacc.
    - exists candidate. split; [|by left].
      apply elem_of_app. right. apply list_elem_of_here.
    - destruct Hkey as [key Hkey]. unfold accepts in Hacc.
      rewrite Hkey in Hacc.
      apply andb_false_iff in Hacc as [Hseen|Hnear];
        apply negb_false_iff in Hseen || apply negb_false_iff in Hnear.
      + apply bool_decide_eq_true in Hseen.
        apply elem_of_acceptedKeys in Hseen as (kept & ? & ?).
        exists kept. rewrite Hkey. auto.
      + apply existsb_near in Hnear as (kept & ? & ?). exists kept. auto. }
  destruct Hhere as (kept & Hkept & Hwhy). exists kept. split; [|done].
  by apply removeDuplicates_prefix.
Qed.

End DedupExtra.

(** ** The cache after an update *)

Section CacheExtra.

Context {num : Type} `{JSNumber num}.

Implicit Types cache : gmap string (Aircraft num).

Lemma upsertAll_snoc (pre : list (Aircraft num)) aircraft cache :
  fold_left upsert (pre ++ [aircraft]) cache =
  upsert (fold_left upsert pre cache) aircraft.
Proof. by rewrite fold_left_app. Qed.

(** Where an entry of the cache after the second loop comes from. *)
Lemma upsertAll_lookup_Some (batch : list (Aircraft num)) cache key entry :
  fold_left upsert batch cache !! key = Some entry →
  (entry ∈ batch ∧ entityKey entry = Some key) ∨
  (cache !! key = Some entry ∧
   ∀ aircraft, aircraft ∈ batch → entityKey aircraft ≠ Some key).
Proof.
  induction batch as [|a pre IH] using rev_ind.
  - intros Hget. right. split; [done|]. intros a Ha.
    by apply elem_of_nil in Ha.
  - rewrite upsertAll_snoc. unfold upsert at 1.
    destruct (entityKey a) as [k|] eqn:Hk.
    + destruct (decide (k = key)) as [->|Hne].
      * rewrite lookup_insert_eq. intros [= <-]. left. split; [|done].
        apply elem_of_app. right. apply list_elem_of_here.
      * rewrite lookup_insert_ne by done. intros Hget.
        destruct (IH Hget) as [[Hin Hkey]|[Hc Hno]].
        -- left. split; [|done]. apply elem_of_app. by left.
        -- right. split; [done|]. intros x Hx.
           apply elem_of_app in Hx as [Hx|Hx]; [by apply Hno|].
           apply list_elem_of_singleton in Hx as ->. congruence.
    + intros Hget. destruct (IH Hget) as [[Hin Hkey]|[Hc Hno]].
      * left. split; [|done]. apply elem_of_app. by left.
      * right. split; [done|]. intros x Hx.
        apply elem_of_app in Hx as [Hx|Hx]; [by apply Hno|].
        apply list_elem_of_singleton in Hx as ->. congruence.
Qed.

(** The keys of the cache after the second loop. *)
Lemma upsertAll_dom (batch : list (Aircraft num)) cache :
  dom (fold_left upsert batch cache) = dom cache ∪ acceptedKeys batch.
Proof.
  unfold acceptedKeys.
  induction batch as [|a pre IH] using rev_ind.
  - simpl. by rewrite (right_id_L ∅ (∪)).
  - rewrite upsertAll_snoc, omap_app, list_to_set_app_L. unfold upsert at 1.
    simpl. destruct (entityKey a) as [k|]; simpl.
    + rewrite dom_insert_L, IH. rewrite (right_id_L ∅ (∪)).
      rewrite (comm_L (∪) {[k]}). by rewrite (assoc_L (∪)).
    + by rewrite IH, (right_id_L ∅ (∪) (list_to_set _)).
Qed.

(** A later sweep makes an earlier one superfluous. *)
Lemma sweep_sweep (now1 now2 : Z) cache :
  (now1 ≤ now2)%Z → sweep now2 (sweep now1 cache) = sweep now2 cache.
Proof.
  intros Hle. apply map_eq. intros key. apply option_eq. intros entry.
  rewrite !sweep_lookup_Some. unfold maxAge. split.
  - intros [[? ?] ?]. done.
  - intros [? ?]. repeat split; [done|lia|done].
Qed.

Lemma sweep_keyed now cache : cacheKeyed cache → cacheKeyed (sweep now cache).
Proof.
  intros Hc key entry [Hget _]%sweep_lookup_Some. by apply Hc.
Qed.

Lemma updateCache_keyed now (batch : list (Aircraft num)) cache :
  cacheKeyed cache → cacheKeyed (updateCache now batch cache).
Proof.
  intros Hc key entry Hget. unfold updateCache in Hget.
  apply upsertAll_lookup_Some in Hget as [[_ ?]|[Hget _]]; [done|].
  by apply (sweep_keyed now cache Hc).
Qed.

End CacheExtra.

(** A set made from a list is no larger than the list. *)
Lemma size_list_to_set_le (l : list string) :
  size (list_to_set l : gset string) ≤ length l.
Proof.
  induction l as [|x l IH].
  - change (list_to_set [] : gset string) with (∅ : gset string).
    by rewrite size_empty.
  - change (list_to_set (x :: l) : gset string)
      with ({[x]} ∪ list_to_set l : gset string). simpl.
    rewrite size_union_alt, size_singleton.
    pose proof (subseteq_size (list_to_set l ∖ {[x]} : gset string)
                  (list_to_set l)) as Hle.
    assert (list_to_set l ∖ {[x]} ⊆ (list_to_set l : gset string))
      by apply subseteq_difference_l, reflexivity.
    specialize (Hle ltac:(done)). simpl. apply le_n_S.
    etrans; [exact Hle|exact IH].
Qed.

Lemma keysOf_length {num : Type} (l : list (Aircraft num)) :
  length (keysOf l) ≤ length l.
Proof.
  unfold keysOf. induction l as [|x l IH]; [done|].
  change (omap entityKey (x :: l))
    with (match entityKey x with
          | Some k => k :: omap entityKey l
          | None => omap entityKey l
          end).
  destruct (entityKey x); simpl; lia.
Qed.

(** ** Cycles *)

Section CycleExtra.

Context {num : Type} `{JSNumber num}.

(** *** What fusion keeps of the reports of a key *)

Lemma fuseOne_Some_inv (rs : list (Aircraft num)) fused :
  fuseOne rs = Some fused →
  ∃ first rest, rs = first :: rest ∧
                fused = fold_left mergeInto rest (seed first).
Proof. destruct rs as [|first rest]; [done|]. intros [= <-]. eauto. Qed.

Lemma elem_of_reportsOfKey key (reports : list (Aircraft num)) r :
  r ∈ reportsOfKey key reports ↔ entityKey r = Some key ∧ r ∈ reports.
Proof.
  unfold reportsOfKey.
  apply (list_elem_of_filter (fun r => entityKey r = Some key)).
Qed.

Lemma fused_winner (reports : list (Aircraft num)) fused key :
  fused ∈ fuseAircraftData reports → entityKey fused = Some key →
  (∃ winner, winner ∈ reports ∧ entityKey winner = Some key ∧
             sameIdentity fused winner) ∧
  (∀ r, r ∈ reports → entityKey r = Some key →
        (priority r ≤ priority fused)%Z).
Proof.
  intros Hin Hkey.
  apply (fused_is_fuseOne reports fused key Hin) in Hkey as Hone.
  apply fuseOne_Some_inv in Hone as (first & rest & Hrs & ->).
  destruct (fold_mergeInto_winner rest (seed first) first
              (sameIdentity_seed first)) as (w & Hw & Hid & Hle & Hall).
  assert (Hp : priority (fold_left mergeInto rest (seed first)) = priority w)
    by apply Hid.
  split.
  - exists w. assert (Hwin : w ∈ reportsOfKey key reports).
    { rewrite Hrs. destruct Hw as [->|Hw];
        [apply list_elem_of_here|by apply list_elem_of_further]. }
    apply elem_of_reportsOfKey in Hwin as [? ?]. done.
  - intros r Hr Hrk.
    assert (Hrin : r ∈ reportsOfKey key reports)
      by by apply elem_of_reportsOfKey.
    rewrite Hrs in Hrin. rewrite Hp.
    apply elem_of_cons in Hrin as [->|Hrin]; [done|by apply Hall].
Qed.


(** *** The flattened snapshot *)

Lemma elem_of_reportsOf (feed : option (AircraftProp num)) src prio r :
  r ∈ reportsOf feed src prio →
  ∃ raw, r = tag src prio raw ∧
         ∃ l, feed = Some (AircraftArray l) ∧ raw ∈ l.
Proof.
  destruct feed as [[|l|]|]; simpl; try (intros Hr; by apply elem_of_nil in Hr).
  intros (raw & -> & Hraw)%list_elem_of_fmap. eauto.
Qed.

Lemma reportsOf_tagged (feed : option (AircraftProp num)) src prio :
  Forall (fun r => source r = src ∧ priority r = prio)
         (reportsOf feed src prio).
Proof.
  apply Forall_forall. intros r (raw & -> & _)%elem_of_reportsOf. done.
Qed.

Lemma snapshotReports_known (s : Snapshot num) :
  Forall knownSource (snapshotReports s).
Proof.
  unfold snapshotReports. rewrite !Forall_app. repeat split;
    (eapply Forall_impl; [apply reportsOf_tagged|]);
    intros r [? ?]; unfold knownSource; auto.
Qed.



(** *** A cycle that succeeds *)

Lemma processAircraftData_wellFormed (s : Snapshot num) now latency st :
  wellFormed s →
  processAircraftData (Some s) now latency st =
  (Returned (), completed (snapshotReports s) now latency st).
Proof.
  intros Hwf. unfold processAircraftData, try_catch.
  pose proof (process_outcome (Some s) now latency st) as Hout.
  simpl in Hout. unfold wellFormed in Hwf. rewrite Hwf in Hout.
  by rewrite Hout.
Qed.

Lemma processAircraftData_failed (data : option (Snapshot num)) now latency st :
  match data with Some s => ¬ wellFormed s | None => True end →
  ∃ message,
    processAircraftData data now latency st =
    (Returned (),
     {| aircraftCache := aircraftCache st;
        posted := posted st ++ [error message] |}).
Proof.
  intros Hbad. unfold processAircraftData, try_catch.
  pose proof (process_outcome data now latency st) as Hout.
  destruct data as [s|].
  - unfold wellFormed in Hbad.
    destruct (malformed (local s) || malformed (openSky s) ||
              malformed (flightradar s)); [|done].
    rewrite Hout. by eexists.
  - rewrite Hout. by eexists.
Qed.

(** A cycle that posts a list of aircraft and statistics is the completed
    cycle of a well-formed snapshot. *)
Lemma successful_cycle (data : option (Snapshot num)) now latency st st'
    cleaned shown count cacheSize :
  processAircraftData data now latency st = (Returned (), st') →
  posted st' =
    posted st ++ [aircraftData cleaned; systemStats shown count cacheSize] →
  ∃ s, data = Some s ∧ wellFormed s ∧
       cleaned = removeDuplicates (fuseAircraftData (snapshotReports s)) ∧
       aircraftCache st' = updateCache now cleaned (aircraftCache st) ∧
       shown = latency ∧ count = length cleaned ∧
       cacheSize = size (aircraftCache st').
Proof.
  intros Hrun Hposted.
  assert (Hcases : (∃ s, data = Some s ∧ wellFormed s) ∨
                   match data with
                   | Some s => ¬ wellFormed s
                   | None => True
                   end).
  { destruct data as [s|]; [|by right]. unfold wellFormed.
    destruct (malformed (local s) || malformed (openSky s) ||
              malformed (flightradar s)) eqn:Hm.
    - right. discriminate.
    - left. exists s. split; [reflexivity|exact Hm]. }
  destruct Hcases as [(s & -> & Hwf)|Hbad].
  - rewrite processAircraftData_wellFormed in Hrun by done.
    injection Hrun as <-. unfold completed in Hposted. simpl in Hposted.
    apply app_inv_head in Hposted. injection Hposted as <- <- <- <-.
    exists s. unfold completed. simpl. done.
  - destruct (processAircraftData_failed data now latency st Hbad)
      as (message & Hfail).
    rewrite Hfail in Hrun. injection Hrun as <-. simpl in Hposted.
    apply app_inv_head in Hposted. discriminate.
Qed.

End CycleExtra.

(** ** More on the haversine formula *)

Section HaversineExtra.

Local Open Scope R_scope.








End HaversineExtra.

Section NaNExtra.

Local Open Scope float_scope.

Context (m : Double.Libm) (Hm : Double.nan_propagating m).

(** The distance from a point with a NaN coordinate is NaN as well. *)
Lemma calculateDistance_nan_from (lat1 lon1 lat2 lon2 : float) :
  lat1 = nan ∨ lon1 = nan →
  calculateDistance (H := Double.number m) lat1 lon1 lat2 lon2 = nan.
Proof using Hm.
  destruct Hm as [Hsin Hcos Hl Hr].
  assert (Ha : ∀ a, a = nan →
    (Double.of_Z 6371 *
     (Double.of_Z 2 *
      Double.libm_atan2 m (PrimFloat.sqrt a)
        (PrimFloat.sqrt (Double.of_Z 1 - a)))) = nan).
  { intros a ->. by rewrite sqrt_nan, Hl, !mul_nan_r. }
  intros [-> | ->]; unfold calculateDistance; simpl; apply Ha.
  - by rewrite sub_nan_r, mul_nan_l, !div_nan_l, Hsin, mul_nan_l, add_nan_l.
  - by rewrite sub_nan_r, mul_nan_l, !div_nan_l, Hsin, !mul_nan_r, add_nan_r.
Qed.

Lemma near_nan_existing (candidate existing : Aircraft float) :
  latitude existing = nan ∨ longitude existing = nan →
  near (H := Double.number m) candidate existing = false.
Proof using Hm.
  intros Hnan. unfold near. rewrite calculateDistance_nan_from by done.
  apply ltb_nan_l.
Qed.

End NaNExtra.

(** ** Events *)

Section WorkerExtra.

Context {num : Type} `{JSNumber num}.

Lemma separated_keys (l : list (Aircraft num)) :
  separated l → NoDup (keysOf l) ∧ length (keysOf l) = length l.
Proof.
  induction l as [|c pre IH] using rev_ind; [by split; [constructor|]|].
  intros [Hpre Hacc]%separated_snoc.
  destruct (IH Hpre) as [Hnd Hlen].
  apply accepts_true in Hacc as [[key Hkey] Hall].
  rewrite keysOf_snoc, Hkey. split.
  - apply NoDup_app. split; [done|]. split; [|apply NoDup_singleton].
    intros k Hk ->%list_elem_of_singleton.
    apply list_elem_of_omap in Hk as (e & He & Hek).
    destruct (Hall e He). congruence.
  - rewrite !length_app, Hlen. done.
Qed.

(** The cache after the cycle of a well-formed snapshot. *)
Lemma onmessage_processData_wellFormed (s : Snapshot num) now latency g :
  wellFormed s →
  cacheOf (onmessage "processData" (Some s) now latency g) =
  updateCache now (removeDuplicates (fuseAircraftData (snapshotReports s)))
    (cacheOf g).
Proof.
  intros Hwf. unfold onmessage. simpl.
  by rewrite processAircraftData_wellFormed.
Qed.

Lemma onmessage_processData_failed (data : option (Snapshot num)) now latency g :
  match data with Some s => ¬ wellFormed s | None => True end →
  cacheOf (onmessage "processData" data now latency g) = cacheOf g.
Proof.
  intros Hbad. unfold onmessage. simpl.
  destruct (processAircraftData_failed data now latency
              {| aircraftCache := cacheOf g; posted := [] |} Hbad)
    as (msg & ->). done.
Qed.

(** An event either leaves the cache as it is or is the cycle of a
    well-formed snapshot. *)
Lemma handle_cache (g : Globals num) (ev : Event num) :
  cacheOf (handle g ev) = cacheOf g ∨
  ∃ s now latency,
    ev = messageEvent "processData" (Some s) now latency ∧ wellFormed s ∧
    cacheOf (handle g ev) =
    updateCache now (removeDuplicates (fuseAircraftData (snapshotReports s)))
      (cacheOf g).
Proof.
  destruct ev as [type data now latency|now]; [|by left]. simpl.
  destruct (String.eqb_spec type "processData") as [->|Hne].
  - destruct data as [s|].
    + destruct (malformed (local s) || malformed (openSky s) ||
                malformed (flightradar s)) eqn:Hm.
      * left. apply onmessage_processData_failed. unfold wellFormed.
        rewrite Hm. discriminate.
      * right. exists s, now, latency. split; [done|]. split; [done|].
        by apply onmessage_processData_wellFormed.
    + left. by apply onmessage_processData_failed.
  - left. unfold onmessage.
    destruct (String.eqb_spec type "processData"); [done|].
    by destruct (String.eqb type "getStats").
Qed.

Lemma updateCache_fromFusion now (s : Snapshot num) cache :
  cacheFromFusion cache →
  cacheFromFusion
    (updateCache now (removeDuplicates (fuseAircraftData (snapshotReports s)))
       cache).
Proof.
  intros Hc key entry Hget. unfold updateCache in Hget.
  apply upsertAll_lookup_Some in Hget as [[Hin Hkey]|[Hget _]].
  - split; [done|]. exists s.
    eapply elem_of_sublist; [exact Hin|apply removeDuplicates_sublist].
  - apply sweep_lookup_Some in Hget as [Hget _]. by apply Hc.
Qed.

Lemma runWorker_snoc (events : list (Event num)) ev :
  runWorker (events ++ [ev]) = handle (runWorker events) ev.
Proof. unfold runWorker. by rewrite fold_left_app. Qed.

Lemma runWorker_fromFusion (events : list (Event num)) :
  cacheFromFusion (cacheOf (runWorker events)).
Proof.
  induction events as [|ev events IH] using rev_ind.
  - intros key entry Hget. simpl in Hget. by rewrite lookup_empty in Hget.
  - rewrite runWorker_snoc.
    destruct (handle_cache (runWorker events) ev)
      as [->|(s & now & latency & _ & _ & ->)]; [done|].
    by apply updateCache_fromFusion.
Qed.

(** A fused object has the source tag and the priority of its winner. *)
Lemma fused_known (s : Snapshot num) fused :
  fused ∈ fuseAircraftData (snapshotReports s) → knownSource fused.
Proof.
  intros Hin. destruct (fused_has_key _ _ Hin) as [key Hkey].
  destruct (fused_winner _ _ key Hin Hkey) as [(w & Hw & _ & Hid) _].
  pose proof (snapshotReports_known s) as Hknown.
  rewrite Forall_forall in Hknown. specialize (Hknown w Hw).
  destruct Hid as (_ & _ & _ & _ & Hsrc & Hprio).
  unfold knownSource in *. rewrite Hsrc, Hprio. done.
Qed.

End WorkerExtra.

Section OutboxExtra.

Context {num : Type} `{JSNumber num}.

(** The four ways in which an event is handled. *)
Lemma handle_outcome (g : Globals num) (ev : Event num) :
  handle g ev = g ∨
  (∃ now, handle g ev = sendStats now g) ∨
  (∃ text, handle g ev =
     {| cacheOf := cacheOf g;
        outbox := outbox g ++ [cycleReply (error text)] |}) ∨
  (∃ s now latency, wellFormed s ∧
     let cleaned :=
       removeDuplicates (fuseAircraftData (snapshotReports s)) in
     let cache := updateCache now cleaned (cacheOf g) in
     handle g ev =
     {| cacheOf := cache;
        outbox := outbox g ++
                  [cycleReply (aircraftData cleaned);
                   cycleReply (systemStats latency (length cleaned)
                                 (size cache))] |}).
Proof.
  destruct ev as [type data now latency|now];
    [|right; left; by exists now]. simpl. unfold onmessage.
  destruct (String.eqb type "processData").
  - assert (Hcases : (∃ s, data = Some s ∧ wellFormed s) ∨
                     match data with
                     | Some s => ¬ wellFormed s
                     | None => True
                     end).
    { destruct data as [s|]; [|by right]. unfold wellFormed.
      destruct (malformed (local s) || malformed (openSky s) ||
                malformed (flightradar s)) eqn:Hm.
      - right. discriminate.
      - left. exists s. split; [reflexivity|exact Hm]. }
    destruct Hcases as [(s & -> & Hwf)|Hbad].
    + right. right. right. exists s, now, latency. split; [done|].
      rewrite processAircraftData_wellFormed by done. reflexivity.
    + right. right. left.
      destruct (processAircraftData_failed data now latency
                  {| aircraftCache := cacheOf g; posted := [] |} Hbad)
        as (text & ->).
      by exists text.
  - destruct (String.eqb type "getStats").
    + right. left. by exists now.
    + by left.
Qed.

Lemma last_reported_snoc_stats (replies : list (Reply num)) reply n :
  reportedCacheSize reply = Some n →
  last (omap reportedCacheSize (replies ++ [reply])) = Some n.
Proof.
  intros Hr. rewrite omap_app. simpl. rewrite Hr. simpl. apply last_snoc.
Qed.

(** The statistics posted last report the size of the cache as it is. *)
Lemma runWorker_stats_current (events : list (Event num)) n :
  last (omap reportedCacheSize (outbox (runWorker events))) = Some n →
  n = size (cacheOf (runWorker events)).
Proof.
  revert n. induction events as [|ev events IH] using rev_ind; [done|].
  intros n. rewrite runWorker_snoc.
  destruct (handle_outcome (runWorker events) ev)
    as [->|[(now & ->)|[(text & ->)|(s & now & latency & _ & ->)]]].
  - apply IH.
  - unfold sendStats. simpl.
    rewrite (last_reported_snoc_stats _ _ (size (cacheOf (runWorker events))))
      by done.
    by intros [= <-].
  - simpl. rewrite omap_app. simpl. rewrite app_nil_r. apply IH.
  - simpl.
    change (outbox (runWorker events) ++
            [cycleReply (aircraftData ?c); ?r])
      with (outbox (runWorker events) ++ [cycleReply (aircraftData c)] ++ [r]).
    rewrite app_assoc.
    erewrite last_reported_snoc_stats by reflexivity.
    by intros [= <-].
Qed.

End OutboxExtra.

(** * Further properties of the worker *)

(** ** fuseAircraftData *)

(** X1: [fuseAircraftData] returns one object for each key of the reports:
    the keys of its result are the keys of the reports without repetition,
    in the order of their first sighting. *)
Theorem fuse_one_object_per_key {num : Type} `{JSNumber num}
    (reports : list (Aircraft num)) :
  keysOf (fuseAircraftData reports) = firstSightings (keysOf reports) ∧
  length (fuseAircraftData reports) =
    length (firstSightings (keysOf reports)) ∧
  NoDup (keysOf (fuseAircraftData reports)) ∧
  (∀ key, key ∈ keysOf (fuseAircraftData reports) ↔ key ∈ keysOf reports).
Proof.
  rewrite keysOf_fused, fusedMapOf_fst. split; [done|]. split; [|split].
  - unfold fuseAircraftData, map_values. fold (fusedMapOf reports).
    rewrite length_map, <- fusedMapOf_fst. by rewrite length_fmap.
  - apply firstSightings_NoDup.
  - intros key. apply elem_of_firstSightings.
Qed.

(** X2: fusion works key by key: the object returned for a key is the seed
    of the first report of that key with the later reports of that key
    merged into it in their order, whatever reports of other keys lie in
    between. *)
Theorem fuse_key_by_key {num : Type} `{JSNumber num}
    (reports : list (Aircraft num)) (key : string) (fused : Aircraft num) :
  fused ∈ fuseAircraftData reports ∧ entityKey fused = Some key ↔
  fuseOne (reportsOfKey key reports) = Some fused.
Proof.
  split.
  - intros [Hin Hkey]. by apply fused_is_fuseOne.
  - intros Hone. split; [by eapply fuseOne_is_fused|].
    rewrite <- fusedMapOf_get in Hone.
    eapply map_get_keyed; [apply fusedMapOf_keyed|exact Hone].
Qed.





(** X5: reports with pairwise different keys are not merged: each report
    with a key gives its seed, in the order of the reports, and the reports
    without a key are left out. *)
Theorem fuse_distinct_keys_copies_reports {num : Type} `{JSNumber num}
    (reports : list (Aircraft num)) :
  NoDup (keysOf reports) →
  fuseAircraftData reports =
  seed <$> filter (fun r => is_Some (entityKey r)) reports.
Proof. apply fusedMapOf_distinct. Qed.

Lemma fuse_distinct_keys_copies_reports_witness :
  let a := sighting64 "4b1805" 35.5 51.25 9000 1 2000 in
  let b := sighting64 "4b1806" 35.75 51.5 9500 3 1000 in
  fuseAircraftData (H := binary64) [a; b] =
  seed (H := binary64) <$>
    filter (fun r => is_Some (entityKey r)) [a; b].
Proof.
  intros a b.
  apply (fuse_distinct_keys_copies_reports (H := binary64) [a; b]).
  apply NoDup_cons. split.
  - intros Hin. apply list_elem_of_singleton in Hin. discriminate.
  - apply NoDup_singleton.
Defined.

(** ** removeDuplicates *)

(** X6: [removeDuplicates] only leaves objects out: its result is a
    sublist of its input, with the objects as they were and in their
    order, and so it is no longer than the input. *)
Theorem removeDuplicates_is_sublist {num : Type} `{JSNumber num}
    (aircraft : list (Aircraft num)) :
  removeDuplicates aircraft `sublist_of` aircraft ∧
  length (removeDuplicates aircraft) ≤ length aircraft.
Proof.
  pose proof (removeDuplicates_sublist aircraft) as Hsub.
  split; [done|]. by apply sublist_length.
Qed.

(** X7: in the result of [removeDuplicates] every object has a key, no two
    objects have the same key, and no object is within the 1 km threshold
    of an object before it. *)
Theorem removeDuplicates_output_separated {num : Type} `{JSNumber num}
    (aircraft pre post : list (Aircraft num)) (kept : Aircraft num) :
  removeDuplicates aircraft = pre ++ kept :: post →
  is_Some (entityKey kept) ∧
  ∀ earlier, earlier ∈ pre →
    entityKey earlier ≠ entityKey kept ∧
    (calculateDistance (latitude earlier) (longitude earlier)
       (latitude kept) (longitude kept) <? #1)%js = false.
Proof.
  intros Heq. by apply (removeDuplicates_separated aircraft pre kept post).
Qed.

Lemma removeDuplicates_output_separated_witness :
  let a := sightingR "4b1805" 0 0 9000 1 2000 in
  let b := sightingR "4b1806" two_km_north 0 9000 1 2000 in
  is_Some (entityKey b) ∧
  ∀ earlier, earlier ∈ [a] →
    entityKey earlier ≠ entityKey b ∧
    (calculateDistance (latitude earlier) (longitude earlier)
       (latitude b) (longitude b) <? #1)%js = false.
Proof.
  intros a b.
  apply (removeDuplicates_output_separated [a; b] [a] [] b).
  rewrite (removeDuplicates_pair a b "4b1805" "4b1806");
    [|reflexivity|reflexivity|discriminate].
  destruct (near b a) eqn:Hnear; [|reflexivity].
  apply near_exact in Hnear. exfalso.
  unfold a, b, sightingR, sighting in Hnear. cbn [latitude longitude] in Hnear.
  rewrite calculateDistance_two_km in Hnear. lra.
Defined.

(** X8: [removeDuplicates] is idempotent. *)
Theorem removeDuplicates_idempotent {num : Type} `{JSNumber num}
    (aircraft : list (Aircraft num)) :
  removeDuplicates (removeDuplicates aircraft) = removeDuplicates aircraft.
Proof. apply removeDuplicates_fixed, removeDuplicates_separated. Qed.



(** X10: every candidate with a key is represented in the result: it is
    kept, or a kept object has its key, or a kept object is within the
    threshold of it. *)
Theorem removeDuplicates_represents_candidates {num : Type} `{JSNumber num}
    (aircraft : list (Aircraft num)) (candidate : Aircraft num) :
  candidate ∈ aircraft → is_Some (entityKey candidate) →
  ∃ kept, kept ∈ removeDuplicates aircraft ∧
    (kept = candidate ∨ entityKey kept = entityKey candidate ∨
     (calculateDistance (latitude kept) (longitude kept)
        (latitude candidate) (longitude candidate) <? #1)%js = true).
Proof. apply removeDuplicates_represents. Qed.

Lemma removeDuplicates_represents_candidates_witness :
  let a := sighting64 "4b1805" 35.5 51.25 9000 1 2000 in
  let b := sighting64 "4b1805" 36.5 52.25 9000 1 2000 in
  ∃ kept, kept ∈ removeDuplicates (H := binary64) [a; b] ∧
    (kept = b ∨ entityKey kept = entityKey b ∨
     near (H := binary64) b kept = true).
Proof.
  intros a b.
  apply (removeDuplicates_represents_candidates (H := binary64) [a; b] b).
  - apply list_elem_of_further, list_elem_of_here.
  - by eexists.
Defined.



(** ** updateCache *)



(** X13: the keys of the cache after [updateCache] are the keys that
    survive the sweep together with the keys of the batch, so the cache
    grows by at most the length of the batch. *)
Theorem updateCache_domain {num : Type}
    (now : Z) (batch : list (Aircraft num))
    (cache : gmap string (Aircraft num)) :
  dom (updateCache now batch cache) =
    dom (sweep now cache) ∪ list_to_set (keysOf batch) ∧
  dom (sweep now cache) ⊆ dom cache ∧
  size (updateCache now batch cache) ≤ size cache + length batch.
Proof.
  assert (Hdom : dom (updateCache now batch cache) =
                 dom (sweep now cache) ∪ list_to_set (keysOf batch)).
  { unfold updateCache. apply upsertAll_dom. }
  assert (Hsub : dom (sweep now cache) ⊆ dom cache).
  { unfold sweep. apply dom_filter_subseteq. }
  split; [done|]. split; [done|].
  rewrite <- !size_dom, Hdom.
  rewrite size_union_alt.
  pose proof (subseteq_size _ _ Hsub) as H1.
  pose proof (size_list_to_set_le (keysOf batch)) as H2.
  assert (H3 : size ((list_to_set (keysOf batch) : gset string) ∖
                     dom (sweep now cache)) ≤
               size (list_to_set (keysOf batch) : gset string)).
  { apply subseteq_size, subseteq_difference_l. reflexivity. }
  pose proof (keysOf_length batch) as H4.
  lia.
Qed.

(** X14: a cycle with an empty batch only sweeps, and a later cycle makes
    it superfluous: the cache after both is the cache after the later one
    alone. *)
Theorem updateCache_after_empty_cycle {num : Type}
    (now1 now2 : Z) (batch : list (Aircraft num))
    (cache : gmap string (Aircraft num)) :
  (now1 ≤ now2)%Z →
  updateCache now2 batch (updateCache now1 [] cache) =
  updateCache now2 batch cache.
Proof.
  intros Hle. unfold updateCache. simpl. by rewrite sweep_sweep.
Qed.

Lemma updateCache_after_empty_cycle_witness :
  let old := sighting64 "4b1806" 36.5 52.25 9000 1 71000 in
  let new := sighting64 "4b1807" 37.75 53.5 9500 3 60000 in
  updateCache 102000 [new]
    (updateCache 101000 [] ({["4b1806" := old]}
                              : gmap string (Aircraft float))) =
  updateCache 102000 [new] {["4b1806" := old]}.
Proof.
  intros old new.
  apply (updateCache_after_empty_cycle 101000 102000). lia.
Defined.

(** ** processAircraftData *)

(** X15: [processAircraftData] never throws, and a call posts either the
    list of aircraft followed by the statistics, or one error message. *)
Theorem processAircraftData_posts_result_or_error {num : Type} `{JSNumber num}
    (data : option (Snapshot num)) (now latency : Z) (st : WorkerState num) :
  ∃ st', processAircraftData data now latency st = (Returned (), st') ∧
    ((∃ cleaned,
        posted st' =
        posted st ++
        [aircraftData cleaned;
         systemStats latency (length cleaned) (size (aircraftCache st'))]) ∨
     (∃ text, posted st' = posted st ++ [error text] ∧
              aircraftCache st' = aircraftCache st)).
Proof.
  assert (Hcases : (∃ s, data = Some s ∧ wellFormed s) ∨
                   match data with
                   | Some s => ¬ wellFormed s
                   | None => True
                   end).
  { destruct data as [s|]; [|by right]. unfold wellFormed.
    destruct (malformed (local s) || malformed (openSky s) ||
              malformed (flightradar s)) eqn:Hm.
    - right. discriminate.
    - left. exists s. split; [reflexivity|exact Hm]. }
  destruct Hcases as [(s & -> & Hwf)|Hbad].
  - rewrite processAircraftData_wellFormed by done.
    eexists. split; [reflexivity|]. left. eexists. reflexivity.
  - destruct (processAircraftData_failed data now latency st Hbad)
      as (text & ->).
    eexists. split; [reflexivity|]. right. by exists text.
Qed.

(** X16: after a cycle that posts a list of aircraft, each of them is in
    the cache under its key, and the [processedCount] of the statistics is
    at most their [cacheSize]. *)
Theorem cycle_caches_what_it_emits {num : Type} `{JSNumber num}
    (data : option (Snapshot num)) (now latency : Z)
    (st st' : WorkerState num) (cleaned : list (Aircraft num))
    (shown : Z) (count cacheSize : nat) :
  processAircraftData data now latency st = (Returned (), st') →
  posted st' =
    posted st ++ [aircraftData cleaned; systemStats shown count cacheSize] →
  (∀ aircraft, aircraft ∈ cleaned →
     ∃ key, entityKey aircraft = Some key ∧
            aircraftCache st' !! key = Some aircraft) ∧
  count = length cleaned ∧ cacheSize = size (aircraftCache st') ∧
  count ≤ cacheSize.
Proof.
  intros Hrun Hposted.
  destruct (successful_cycle data now latency st st' cleaned shown count
              cacheSize Hrun Hposted)
    as (s & -> & Hwf & Hclean & Hcache & -> & -> & ->).
  assert (Hsep : separated cleaned).
  { rewrite Hclean. apply removeDuplicates_separated. }
  split; [|split; [done|split; [done|]]].
  - intros aircraft Hin.
    apply list_elem_of_split in Hin as (pre & post & Heq).
    destruct (Hsep pre aircraft post Heq) as [[key Hkey] _].
    exists key. split; [done|]. rewrite Hcache, Heq. unfold updateCache.
    apply upsertAll_lookup_last; [done|].
    intros later Hlater Hsame.
    apply list_elem_of_split in Hlater as (mid & post' & ->).
    destruct (Hsep (pre ++ aircraft :: mid) later post') as [_ Hearlier].
    { by rewrite <- app_assoc. }
    destruct (Hearlier aircraft) as [Hne _].
    { apply elem_of_app. right. apply list_elem_of_here. }
    congruence.
  - destruct (separated_keys cleaned Hsep) as [Hnd Hlen].
    rewrite <- Hlen, <- (size_list_to_set (C := gset string)) by done.
    rewrite <- size_dom. apply subseteq_size.
    rewrite Hcache. unfold updateCache. rewrite upsertAll_dom.
    unfold acceptedKeys, keysOf. apply union_subseteq_r.
Qed.

Lemma cycle_caches_what_it_emits_witness :
  let a := sighting64 "4b1805" 35.5 51.25 9000 1 2000 in
  let data := Some (snapshot64 (Some (AircraftArray [a])) None None) in
  let st' := (processAircraftData (H := binary64) data 5000 7 idle64).2 in
  (∀ aircraft, aircraft ∈ [tag "local" 3 (seed (H := binary64) a)] →
     ∃ key, entityKey aircraft = Some key ∧
            aircraftCache st' !! key = Some aircraft) ∧
  1 = length [tag "local" 3 (seed (H := binary64) a)] ∧
  1 = size (aircraftCache st') ∧ 1 ≤ 1.
Proof.
  intros a data st'.
  apply (cycle_caches_what_it_emits (H := binary64) data 5000 7 idle64 st'
           [tag "local" 3 (seed (H := binary64) a)] 7 1 1).
  - reflexivity.
  - reflexivity.
Defined.

(** X17: each aircraft that a cycle posts carries one of the three source
    tags with its priority, so [getAircraftColor] of main.js gives it one
    of the three source colours and not the default; and no report of the
    snapshot with its key has a higher priority. *)
Theorem cycle_emits_known_sources {num : Type} `{JSNumber num}
    (s : Snapshot num) (now latency : Z)
    (st st' : WorkerState num) (cleaned : list (Aircraft num))
    (shown : Z) (count cacheSize : nat) (aircraft : Aircraft num) :
  processAircraftData (Some s) now latency st = (Returned (), st') →
  posted st' =
    posted st ++ [aircraftData cleaned; systemStats shown count cacheSize] →
  aircraft ∈ cleaned →
  knownSource aircraft ∧
  getAircraftColor (source aircraft) ≠ "#ffffff" ∧
  (∀ r, r ∈ snapshotReports s → entityKey r = entityKey aircraft →
        (priority r ≤ priority aircraft)%Z).
Proof.
  intros Hrun Hposted Hin.
  destruct (successful_cycle (Some s) now latency st st' cleaned shown count
              cacheSize Hrun Hposted)
    as (s' & [= <-] & Hwf & Hclean & _).
  assert (Hfused : aircraft ∈ fuseAircraftData (snapshotReports s)).
  { rewrite Hclean in Hin.
    eapply elem_of_sublist; [exact Hin|apply removeDuplicates_sublist]. }
  pose proof (fused_known s aircraft Hfused) as Hknown.
  split; [done|]. split.
  - destruct Hknown as [[-> _]|[[-> _]|[-> _]]]; discriminate.
  - destruct (fused_has_key _ _ Hfused) as [key Hkey]. rewrite Hkey.
    by apply fused_winner.
Qed.

Lemma cycle_emits_known_sources_witness :
  let a := sighting64 "4b1805" 35.5 51.25 9000 1 2000 in
  let emitted := tag "local" 3 (seed (H := binary64) a) in
  let s := snapshot64 (Some (AircraftArray [a])) None None in
  knownSource emitted ∧
  getAircraftColor (source emitted) ≠ "#ffffff" ∧
  (∀ r, r ∈ snapshotReports s → entityKey r = entityKey emitted →
        (priority r ≤ priority emitted)%Z).
Proof.
  intros a emitted s.
  apply (cycle_emits_known_sources (H := binary64) s 5000 7 idle64
           (processAircraftData (H := binary64) (Some s) 5000 7 idle64).2
           [emitted] 7 1 1 emitted).
  - reflexivity.
  - reflexivity.
  - apply list_elem_of_here.
Defined.



(** ** calculateDistance *)






(** X22: in binary64, with a libm that returns NaN on NaN, the distance
    from an object whose latitude or longitude is NaN is NaN too, so such
    an object, once accepted, makes no candidate a proximity duplicate; a
    list of objects with keys of their own that all have a NaN coordinate
    comes back from [removeDuplicates] unchanged. *)
Theorem nan_positions_never_deduplicate (m : Double.Libm)
    (aircraft : list (Aircraft float)) :
  Double.nan_propagating m →
  Forall (fun a => latitude a = nan ∨ longitude a = nan) aircraft →
  (∀ existing candidate, existing ∈ aircraft →
     near (H := Double.number m) candidate existing = false) ∧
  (NoDup (keysOf aircraft) → length (keysOf aircraft) = length aircraft →
   removeDuplicates (H := Double.number m) aircraft = aircraft).
Proof.
  intros Hm Hnan. rewrite Forall_forall in Hnan. split.
  - intros existing candidate Hin. apply near_nan_existing; auto.
  - induction aircraft as [|c pre IH] using rev_ind; [done|].
    rewrite keysOf_snoc, length_app. simpl.
    destruct (entityKey c) as [key|] eqn:Hkey.
    + rewrite length_app. simpl.
      intros [Hnd [Hnew _]]%NoDup_app Hlen.
      rewrite (removeDuplicates_snoc_accept (H := Double.number m) pre c key
                 Hkey).
      * rewrite IH; [done| |done|lia].
        intros a Ha. apply Hnan, elem_of_app. by left.
      * intros existing Hex. split.
        -- intros Hk. apply (Hnew key); [|apply list_elem_of_here].
           apply list_elem_of_omap. exists existing. split; [|done].
           eapply elem_of_sublist; [exact Hex|].
           apply (removeDuplicates_sublist (H := Double.number m)).
        -- apply near_nan; [done|]. apply Hnan, elem_of_app. right.
           apply list_elem_of_here.
    + intros _ Hlen. pose proof (keysOf_length pre). lia.
Qed.

Lemma nan_positions_never_deduplicate_witness :
  let a := sighting64 "4b1805" nan 51.25 9000 1 2000 in
  let b := sighting64 "4b1806" nan 51.25 9000 1 2000 in
  removeDuplicates (H := binary64) [a; b] = [a; b].
Proof.
  intros a b.
  destruct (nan_positions_never_deduplicate Double.series_libm [a; b])
    as [_ Hsame].
  - exact series_libm_nan_propagating.
  - repeat constructor.
  - apply Hsame; [|reflexivity].
    apply NoDup_cons. split; [|apply NoDup_singleton].
    intros Hin. apply list_elem_of_singleton in Hin. discriminate.
Defined.

(** ** The worker over its events *)

(** X23: whatever events the worker has handled since its start, each
    entry of its cache is stored under its own key and carries one of the
    three source tags with its priority. *)
Theorem worker_cache_invariant {num : Type} `{JSNumber num}
    (events : list (Event num)) (key : string) (entry : Aircraft num) :
  cacheOf (runWorker events) !! key = Some entry →
  entityKey entry = Some key ∧ knownSource entry.
Proof.
  intros Hget.
  destruct (runWorker_fromFusion events key entry Hget) as [Hkey [s Hin]].
  split; [done|]. by apply (fused_known s).
Qed.

Lemma worker_cache_invariant_witness :
  let a := sighting64 "4b1805" 35.5 51.25 9000 1 2000 in
  let s := snapshot64 None (Some (AircraftArray [a])) None in
  let entry := tag "opensky" 2 (seed (H := binary64) a) in
  entityKey entry = Some "4b1805" ∧ knownSource entry.
Proof.
  intros a s entry.
  apply (worker_cache_invariant (H := binary64)
           [messageEvent "processData" (Some s) 5000 7; intervalEvent 6000]).
  reflexivity.
Defined.

(** X24: in binary64 every entry of the worker's cache has confidence
    1.0, whatever events the worker has handled. *)
Theorem worker_cache_confidence_one (m : Double.Libm)
    (events : list (Event float)) (key : string) (entry : Aircraft float) :
  cacheOf (runWorker (H := Double.number m) events) !! key = Some entry →
  confidence entry = 1.0%float.
Proof.
  intros Hget.
  destruct (runWorker_fromFusion (H := Double.number m) events key entry Hget)
    as [_ [s Hin]].
  pose proof (fuse_invariant (H := Double.number m)
                (fun a => confidence a = 1.0%float)) as Hinv.
  assert (Hall : Forall (fun a => confidence a = 1.0%float)
                   (fuseAircraftData (H := Double.number m)
                      (snapshotReports s))).
  { apply Hinv.
    - reflexivity.
    - intros existing aircraft Hone. unfold mergeInto. cbv zeta.
      destruct (priority existing <? priority aircraft)%Z.
      { destruct (_ <? _)%Z; reflexivity. }
      destruct (priority aircraft =? priority existing)%Z.
      + destruct (_ <? _)%Z; simpl; rewrite Hone; reflexivity.
      + destruct (_ <? _)%Z; simpl; exact Hone. }
  rewrite Forall_forall in Hall. by apply Hall.
Qed.

Lemma worker_cache_confidence_one_witness :
  let a := sighting64 "4b1805" 35.5 51.25 9000 1 2000 in
  let s := snapshot64 None (Some (AircraftArray [a])) None in
  confidence (tag "opensky" 2 (seed (H := binary64) a)) = 1.0%float.
Proof.
  intros a s.
  apply (worker_cache_confidence_one Double.series_libm
           [messageEvent "processData" (Some s) 5000 7] "4b1805").
  reflexivity.
Defined.

(** X25: only a [processData] message with a well-formed snapshot changes
    the cache: a [getStats] message, the interval, a message of another
    type and a [processData] message whose cycle fails all leave it as it
    is, and a well-formed one applies [updateCache] to what the cycle
    emits. *)
Theorem worker_cache_changes_only_on_data {num : Type} `{JSNumber num}
    (g : Globals num) :
  (∀ ev,
     (∀ s now latency,
        ev = messageEvent "processData" (Some s) now latency →
        ¬ wellFormed s) →
     cacheOf (handle g ev) = cacheOf g) ∧
  (∀ s now latency,
     wellFormed s →
     cacheOf (handle g (messageEvent "processData" (Some s) now latency)) =
     updateCache now
       (removeDuplicates (fuseAircraftData (snapshotReports s)))
       (cacheOf g)).
Proof.
  split.
  - intros ev Hnot.
    destruct (handle_cache g ev) as [?|(s & now & latency & -> & Hwf & _)];
      [done|].
    by destruct (Hnot s now latency).
  - intros s now latency Hwf. by apply onmessage_processData_wellFormed.
Qed.

Lemma worker_cache_changes_only_on_data_witness :
  let a := sighting64 "4b1805" 35.5 51.25 9000 1 2000 in
  let g : Globals float :=
    {| cacheOf := {["4b1805" := a]}; outbox := [] |} in
  cacheOf (handle (H := binary64) g (messageEvent "getStats" None 99000 0)) =
  cacheOf g.
Proof.
  intros a g.
  destruct (worker_cache_changes_only_on_data (H := binary64) g)
    as [Hsame _].
  apply Hsame. intros s now latency Heq. discriminate.
Defined.

(** X26: the statistics that the worker posted last, be they those of a
    cycle or of [sendStats], report the size the cache has now: nothing
    changes the cache without posting statistics after it. *)
Theorem worker_statistics_are_current {num : Type} `{JSNumber num}
    (events : list (Event num)) (n : nat) :
  last (omap reportedCacheSize (outbox (runWorker events))) = Some n →
  n = size (cacheOf (runWorker events)).
Proof. apply runWorker_stats_current. Qed.

Lemma worker_statistics_are_current_witness :
  let a := sighting64 "4b1805" 35.5 51.25 9000 1 2000 in
  let s := snapshot64 None (Some (AircraftArray [a])) None in
  let events : list (Event float) :=
    [messageEvent "processData" (Some s) 5000 7;
     messageEvent "processData" None 6000 3;
     messageEvent "ping" None 6500 0] in
  1 = size (cacheOf (runWorker (H := binary64) events)).
Proof.
  intros a s events.
  apply (worker_statistics_are_current (H := binary64) events 1).
  reflexivity.
Defined.
